(** * shared/util.js: backend configurator and eye-overlay renderer

    A shallow embedding of [src/shared/util.js].  The file has two
    independent parts:

    - [setBackendAndEnvFlags] / [resetBackend], which validate a flag
      configuration against [TUNABLE_FLAG_VALUE_RANGE_MAP], hand it to the
      tfjs environment and reset the requested backend;
    - [drawResults], which draws the glasses image (or two dots) over the
      eyes of every detected face.

    JavaScript numbers are IEEE binary64 values, modelled by Rocq's
    primitive floats.  Objects used as dictionaries are finite maps;
    objects that are enumerated with [for ... in] are association lists in
    enumeration order.  The asynchronous functions are modelled as run to
    completion: an [await] is a sequencing point at which the awaited call
    either returns or throws. *)

From Stdlib Require Import PrimFloat ZArith Ascii.
From stdpp Require Import gmap strings list.

Local Open Scope Z_scope.

(** ** JavaScript values *)

(** The values that can be passed as [flagConfig], stored under a flag or
    held in [STATE].  Objects carry the address that gives them their
    identity and their enumerable properties in [for ... in] order. *)
#[warnings="-register-all"]
Inductive value : Type :=
| VUndefined
| VNull
| VBool (b : bool)
| VNum (n : float)
| VStr (s : string)
| VFunction (addr : nat)
| VObject (addr : nat) (props : list (string * value)).

Definition JSObject : Type := list (string * value).

(** [typeof v] *)
Definition typeof (v : value) : string :=
  match v with
  | VUndefined => "undefined"
  | VNull => "object"
  | VBool _ => "boolean"
  | VNum _ => "number"
  | VStr _ => "string"
  | VFunction _ => "function"
  | VObject _ _ => "object"
  end.

(** [v == null] *)
Definition loosely_null (v : value) : bool :=
  match v with
  | VUndefined | VNull => true
  | _ => false
  end.

(** [a === b]: numbers by IEEE equality (so [NaN] differs from itself),
    objects and functions by identity. *)
Definition strict_equals (a b : value) : bool :=
  match a, b with
  | VUndefined, VUndefined => true
  | VNull, VNull => true
  | VBool p, VBool q => Bool.eqb p q
  | VNum m, VNum n => PrimFloat.eqb m n
  | VStr s, VStr t => String.eqb s t
  | VFunction i, VFunction j => Nat.eqb i j
  | VObject i _, VObject j _ => Nat.eqb i j
  | _, _ => false
  end.

(** [!!v] *)
Definition truthy (v : value) : bool :=
  match v with
  | VUndefined | VNull => false
  | VBool b => b
  | VNum n => negb (PrimFloat.eqb n 0 || PrimFloat.is_nan n)
  | VStr s => negb (String.eqb s "")
  | VFunction _ | VObject _ _ => true
  end.

(** [Array.prototype.indexOf]: the first index holding a strictly equal
    element, [-1] when there is none. *)
Fixpoint indexOf_from (i : Z) (l : list value) (v : value) : Z :=
  match l with
  | [] => -1
  | x :: l' => if strict_equals x v then i else indexOf_from (i + 1) l' v
  end.

Definition indexOf (l : list value) (v : value) : Z := indexOf_from 0 l v.

(** The properties enumerated by [for (const flag in o)]. *)
Definition properties (v : value) : JSObject :=
  match v with
  | VObject _ props => props
  | _ => []
  end.

Definition keys (o : JSObject) : list string := o.*1.

(** [o[k]]: the value of the property, [undefined] when it is absent. *)
Fixpoint get (o : JSObject) (k : string) : value :=
  match o with
  | [] => VUndefined
  | (k', v) :: o' => if String.eqb k' k then v else get o' k
  end.

(** The property names every plain object inherits from
    [Object.prototype]. *)
Definition Object_prototype : list string :=
  ["constructor"; "__defineGetter__"; "__defineSetter__"; "hasOwnProperty";
   "__lookupGetter__"; "__lookupSetter__"; "isPrototypeOf";
   "propertyIsEnumerable"; "toString"; "valueOf"; "__proto__";
   "toLocaleString"]%string.

Definition inherited (k : string) : bool :=
  bool_decide (k ∈ Object_prototype).

(** [k in m] for a plain object used as a dictionary: [k] is one of its
    own keys or a name it inherits. *)
Definition js_in {V} (k : string) (m : gmap string V) : bool :=
  bool_decide (is_Some (m !! k)) || inherited k.

(** [s.split('-')]: never empty; an empty piece for every separator at an
    end of [s] or next to another separator. *)
Fixpoint split (sep : Ascii.ascii) (s : string) : list string :=
  match s with
  | EmptyString => [""%string]
  | String c s' =>
    if Ascii.eqb c sep then ""%string :: split sep s'
    else match split sep s' with
         | piece :: pieces => String c piece :: pieces
         | [] => [String c ""]
         end
  end.

(** ** The tfjs engine

    [@tensorflow/tfjs-core] is an external library.  The model keeps the
    part of its engine that util.js reads and writes: the table of backend
    factories, the table of live backends, the name of the active backend
    and the environment flags.  The value a call returns is left out
    where util.js discards it. *)
Module tf.

(** What is stored as a backend factory: [null], or a function that
    builds a backend when it is called and may fail doing so (the
    factories of the model read no flag). *)
Inductive Factory : Type :=
| NullFactory
| BackendFactory (id : nat) (initializes : bool).

Record Engine : Type := mkEngine {
  registryFactory : gmap string Factory;
  registry : gmap string nat;
  backendName : option string;
  flags : JSObject
}.

(** The result of a library call: the engine it leaves behind, and
    whether the call returned or threw. *)
Inductive Result : Type :=
| Done (e : Engine)
| Failed (message : string) (e : Engine).

(** [tf.env().setFlags(flags)] replaces the flag table by a copy of
    [flags]. *)
Definition setFlags (fl : JSObject) (e : Engine) : Engine :=
  mkEngine (registryFactory e) (registry e) (backendName e) fl.

(** Reading a flag that is not in the table caches it there with the
    value it evaluates to, which is [false] for the two flags the logger
    reads. *)
Definition cached (flag : string) (fl : JSObject) : JSObject :=
  if bool_decide (flag ∈ keys fl) then fl else fl ++ [(flag, VBool false)].

(** The engine's logger: before it prints it reads [IS_TEST] and, when
    that is not set, [PROD]. *)
Definition warn (e : Engine) : Engine :=
  let fl := cached "IS_TEST" (flags e) in
  mkEngine (registryFactory e) (registry e) (backendName e)
           (if truthy (get fl "IS_TEST") then fl else cached "PROD" fl).

(** [tf.findBackendFactory(name)]: the stored factory, [null] when the
    name is unknown (and [undefined] for a name that is only
    inherited). *)
Definition findBackendFactory (name : string) (e : Engine) : Factory :=
  default NullFactory (registryFactory e !! name).

(** [tf.removeBackend(name)] throws for a name that is not [in] the
    table of factories.  For a name [in] the table of live backends it
    disposes of the backend, which is a [TypeError] when the entry is an
    inherited one; it then forgets the live backend and the factory, and
    unsets the active backend when it was this one. *)
Definition removeBackend (name : string) (e : Engine) : Result :=
  if js_in name (registryFactory e) then
    if js_in name (registry e)
       && negb (bool_decide (is_Some (registry e !! name)))
    then Failed "this.registry[backendName].dispose is not a function" e
    else
      Done (mkEngine (delete name (registryFactory e))
                     (delete name (registry e))
                     (if bool_decide (backendName e = Some name)
                      then None else backendName e)
                     (flags e))
  else Failed (name +:+ " backend not found in registry") e.

(** [tf.registerBackend(name, factory)] keeps what is already [in] the
    table, with a warning, and otherwise stores the factory. *)
Definition registerBackend (name : string) (f : Factory) (e : Engine)
  : Result :=
  if js_in name (registryFactory e) then Done (warn e)
  else Done (mkEngine (<[name := f]> (registryFactory e))
                      (registry e) (backendName e) (flags e)).

(** [tf.setBackend(name)] rejects a name that has no entry in the table
    of factories.  Any other name becomes the active backend; when it
    has no entry in the table of live backends its factory is called.
    A factory that fails (or an entry that holds none) does not make the
    call throw: the failure is logged as a warning and the promise
    resolves to [false], with no live backend stored. *)
Definition setBackend (name : string) (e : Engine) : Result :=
  if js_in name (registryFactory e) then
    let e1 := mkEngine (registryFactory e) (registry e) (Some name)
                       (flags e) in
    if js_in name (registry e) then Done e1
    else
      match registryFactory e !! name with
      | Some (BackendFactory id true) =>
        Done (mkEngine (registryFactory e) (<[name := id]> (registry e))
                       (Some name) (flags e))
      | _ => Done (warn e1)
      end
  else Failed ("Backend name '" +:+ name +:+ "' not found in registry") e.

End tf.

(** ** Process-wide state *)

(** Modelled from the spec: params.js, which declares [STATE], is not part
    of the sources.  The record keeps the two fields util.js touches: the
    backend shown as selected and the last tfjs backend that was
    activated ([undefined] until there is one). *)
Record State : Type := mkState {
  backend : value;
  lastTFJSBackend : value
}.

(** The calls with an effect outside util.js, as they are issued. *)
Inductive Call : Type :=
| CallSetFlags (flagConfig : JSObject)
| CallAlert (message : string)
| CallShowBackendConfigs
| CallRemoveBackend (backendName : string)
| CallRegisterBackend (backendName : string) (factory : tf.Factory)
| CallSetBackend (backendName : string).

(** Everything a call of [setBackendAndEnvFlags] can read or write: the
    engine singleton, [STATE], and the calls issued so far (oldest
    first). *)
Record World : Type := mkWorld {
  ENGINE : tf.Engine;
  STATE : State;
  calls : list Call
}.

(** ** Errors and the monad of effects *)

(** The errors thrown by util.js, one constructor for every [throw], and
    the errors thrown by the library.
    - [InvalidArgument t]: "An object is expected, while a(n) t is found."
    - [UnknownFlag f]: "f is not a tunable or valid environment flag."
    - [InvalidFlagValue f r v]: "f value is expected to be in the range
      [r], while v is found."
    - [BackendNotRegistered b]: "b backend is not registered." *)
Inductive Error : Type :=
| InvalidArgument (found : string)
| UnknownFlag (flag : string)
| InvalidFlagValue (flag : string) (range : list value) (found : value)
| BackendNotRegistered (backendName : string)
| EngineFailure (message : string).

Inductive Outcome (A : Type) : Type :=
| Returned (a : A)
| Threw (e : Error).
Arguments Returned {A} a.
Arguments Threw {A} e.

Definition M (A : Type) : Type := World → Outcome A * World.

#[global] Instance M_ret : MRet M := λ A a w, (Returned a, w).

#[global] Instance M_bind : MBind M := λ A B k m w,
  match m w with
  | (Returned a, w') => k a w'
  | (Threw e, w') => (Threw e, w')
  end.

Definition throw {A} (e : Error) : M A := λ w, (Threw e, w).

Definition read_ENGINE : M tf.Engine := λ w, (Returned (ENGINE w), w).

Definition read_STATE : M State := λ w, (Returned (STATE w), w).

Definition write_STATE (s : State) : M unit := λ w,
  (Returned (), mkWorld (ENGINE w) s (calls w)).

(** A library call: it is recorded, the engine is replaced by the one
    the call leaves behind, and a failure is rethrown. *)
Definition library_call (c : Call) (f : tf.Engine → tf.Result) : M unit :=
  λ w,
  match f (ENGINE w) with
  | tf.Done e => (Returned (), mkWorld e (STATE w) (calls w ++ [c]))
  | tf.Failed msg e =>
    (Threw (EngineFailure msg), mkWorld e (STATE w) (calls w ++ [c]))
  end.

(** A call into the page.  The call is recorded; what the page does with
    it is outside the model. *)
Definition page_call (c : Call) : M unit := λ w,
  (Returned (), mkWorld (ENGINE w) (STATE w) (calls w ++ [c])).

Definition tf_env_setFlags (flagConfig : JSObject) : M unit :=
  library_call (CallSetFlags flagConfig)
               (λ e, tf.Done (tf.setFlags flagConfig e)).

Definition tf_findBackendFactory (name : string) : M tf.Factory := λ w,
  (Returned (tf.findBackendFactory name (ENGINE w)), w).

Definition tf_removeBackend (name : string) : M unit :=
  library_call (CallRemoveBackend name) (tf.removeBackend name).

Definition tf_registerBackend (name : string) (f : tf.Factory) : M unit :=
  library_call (CallRegisterBackend name f) (tf.registerBackend name f).

Definition tf_setBackend (name : string) : M unit :=
  library_call (CallSetBackend name) (tf.setBackend name).

Definition alert (message : string) : M unit :=
  page_call (CallAlert message).

(** Modelled from the spec: option_panel.js, which defines
    [showBackendConfigs], is not part of the sources.  It is the UI
    refresh callback, a notification hook that lets the option panel
    render the backend selection again. *)
Definition showBackendConfigs : M unit := page_call CallShowBackendConfigs.

(** The text of the [alert] in [resetBackend]. *)
Definition webgpu_advice : string :=
  "webgpu backend is not registered. Your browser may not support WebGPU "
  +:+ "yet. To test this backend, please use a supported browser, e.g. "
  +:+ "Chrome canary with --enable-unsafe-webgpu flag".

(** ** The backend configurator *)

(** [resetBackend(backendName)] *)
Definition resetBackend (backendName : string) : M unit :=
  ENGINE ← read_ENGINE;
  if negb (js_in backendName (tf.registryFactory ENGINE)) then
    if String.eqb backendName "webgpu" then
      alert webgpu_advice;;
      STATE ← read_STATE;
      write_STATE
        (mkState (if truthy (lastTFJSBackend STATE)
                  then lastTFJSBackend STATE else VStr "tfjs-webgl")
                 (lastTFJSBackend STATE));;
      showBackendConfigs;;
      mret ()
    else throw (BackendNotRegistered backendName)
  else
    (if js_in backendName (tf.registry ENGINE) then
       backendFactory ← tf_findBackendFactory backendName;
       tf_removeBackend backendName;;
       tf_registerBackend backendName backendFactory
     else mret ());;
    tf_setBackend backendName;;
    STATE ← read_STATE;
    write_STATE (mkState (backend STATE) (VStr ("tfjs-" +:+ backendName))).

Section Configurator.

(** params.js is not part of the sources: the table of tunable flags
    and their legal values is a parameter.  It is taken with the keys
    for which [in] answers [true], each holding an array; what a plain
    object inherits from [Object.prototype] is not modelled. *)
Variable TUNABLE_FLAG_VALUE_RANGE_MAP : gmap string (list value).

(** The validation loop of [setBackendAndEnvFlags], over the flags that
    are still to be visited. *)
Fixpoint check_flags (flagConfig : JSObject) (flags : list string)
  : M unit :=
  match flags with
  | [] => mret ()
  | flag :: rest =>
    match TUNABLE_FLAG_VALUE_RANGE_MAP !! flag with
    | None => throw (UnknownFlag flag)
    | Some range =>
      if indexOf range (get flagConfig flag) =? -1
      then throw (InvalidFlagValue flag range (get flagConfig flag))
      else check_flags flagConfig rest
    end
  end.

(** [setBackendAndEnvFlags(flagConfig, backend)].  A missing second
    piece of [backend] is [undefined]; [resetBackend] only uses its
    argument as a property key and inside template strings, where
    [undefined] reads "undefined". *)
Definition setBackendAndEnvFlags (flagConfig : value) (backend : string)
  : M unit :=
  if loosely_null flagConfig then mret ()
  else if negb (String.eqb (typeof flagConfig) "object") then
    throw (InvalidArgument (typeof flagConfig))
  else
    check_flags (properties flagConfig) (keys (properties flagConfig));;
    tf_env_setFlags (properties flagConfig);;
    match split "-"%char backend with
    | runtime :: pieces =>
      if String.eqb runtime "tfjs" then
        resetBackend (match pieces with
                      | backend' :: _ => backend'
                      | [] => "undefined"%string
                      end)
      else mret ()
    | [] => mret ()
    end.

End Configurator.

(** ** The overlay renderer *)

(** A keypoint as the landmark model reports it, and a face as the list
    of its keypoints (the bounding box of a face is not read by the
    current code). *)
Record Keypoint : Type := mkKeypoint { x : float; y : float }.

Record Face : Type := mkFace { keypoints : list Keypoint }.

(** The shared glasses image: its [complete] flag and [naturalWidth]. *)
Record Image : Type := mkImage { complete : bool; naturalWidth : N }.

(** The methods of the 2D context that [drawResults] calls. *)
Inductive CanvasCall : Type :=
| BeginPath
| Arc (cx cy radius startAngle endAngle : float)
| Fill
| DrawImage (dx dy dWidth dHeight : float).

(** A rendering context is known by the calls it has received, oldest
    first. *)
Definition Context2D : Type := list CanvasCall.

Definition Math_PI : float := 0x1.921fb54442d18p+1%float.

Definition Math_sqrt (a : float) : float := PrimFloat.sqrt a.

(** [Math.pow(a, 2)], taken as the correctly rounded square. *)
Definition Math_pow_2 (a : float) : float := (a * a)%float.

Section Glasses.

(** The two eye points, each an [[x, y]] pair. *)
Variables leftEye rightEye : float * float.

Definition centerX : float := ((leftEye.1 + rightEye.1) / 2)%float.

Definition centerY : float := ((leftEye.2 + rightEye.2) / 2)%float.

Definition eyeDistance : float :=
  Math_sqrt (Math_pow_2 (rightEye.1 - leftEye.1)
             + Math_pow_2 (rightEye.2 - leftEye.2))%float.

Definition glassesWidth : float := (eyeDistance * 3)%float.

Definition glassesHeight : float := (glassesWidth / 2)%float.

(** The divisor is the binary64 value of the literal 1.7. *)
Definition glassesX : float :=
  (centerX - glassesWidth / 0x1.b333333333333p+0)%float.

Definition glassesY : float := (centerY - glassesHeight / 2)%float.

End Glasses.

(** The body of the [faces.forEach] callback of [drawResults]. *)
Definition drawFace (img : Image) (boundingBox showKeypoints : bool)
  (ctx : Context2D) (face : Face) : Context2D :=
  let keypoints := (λ keypoint, (x keypoint, y keypoint)) <$> keypoints face in
  let leftEye := keypoints !! 1%nat in
  let rightEye := keypoints !! 2%nat in
  let ctx :=
    match leftEye, rightEye with
    | Some leftEye, Some rightEye =>
      if complete img && (0 <? naturalWidth img)%N then
        ctx ++ [DrawImage (glassesX leftEye rightEye)
                          (glassesY leftEye rightEye)
                          (glassesWidth leftEye rightEye)
                          (glassesHeight leftEye rightEye)]
      else
        ctx ++ [BeginPath;
                Arc leftEye.1 leftEye.2 3 0 (2 * Math_PI)%float;
                Arc rightEye.1 rightEye.2 3 0 (2 * Math_PI)%float;
                Fill]
    | _, _ => ctx
    end in
  if showKeypoints then ctx else ctx.

(** [drawResults(ctx, faces, boundingBox, showKeypoints)] *)
Definition drawResults (img : Image) (ctx : Context2D) (faces : list Face)
  (boundingBox showKeypoints : bool) : Context2D :=
  foldl (drawFace img boundingBox showKeypoints) ctx faces.

(** ** Path drawing *)

(** The methods of a [Path2D] that [drawPath] calls. *)
Inductive PathCall : Type :=
| MoveTo (px py : float)
| LineTo (px py : float)
| ClosePath.

(** A path is known by the calls it has received, oldest first. *)
Definition Path2D : Type := list PathCall.

(** The calls on a context that is also stroked on: those of
    [drawResults], and the [stroke] of [drawPath] with the region it is
    given. *)
Inductive ContextCall : Type :=
| Draw (c : CanvasCall)
| Stroke (region : Path2D).

(** [drawPath(ctx, points, closePath)].  Reading [points[0][0]] of an
    empty array is a [TypeError], which is the answer [None]; it is
    thrown before anything is stroked. *)
Definition drawPath (ctx : list ContextCall) (points : list (float * float))
  (closePath : bool) : option (list ContextCall) :=
  match points !! 0%nat with
  | None => None
  | Some first =>
    let region : Path2D := [MoveTo first.1 first.2] in
    let region :=
      foldl (λ region point, region ++ [LineTo point.1 point.2])
            region (drop 1 points) in
    let region := if closePath then region ++ [ClosePath] else region in
    Some (ctx ++ [Stroke region])
  end.

(** ** Device detection *)

(** A character as a regular expression with the [i] flag compares it:
    the letters A to Z count as a to z, every other character as
    itself.  (The patterns of util.js are made of ASCII letters, which
    match no character outside ASCII.) *)
Definition fold_case (c : Ascii.ascii) : Ascii.ascii :=
  let n := Ascii.N_of_ascii c in
  if (65 <=? n)%N && (n <=? 90)%N then Ascii.ascii_of_N (n + 32) else c.

(** The word matches at the start of the text. *)
Fixpoint matches_here (word text : string) : bool :=
  match word, text with
  | EmptyString, _ => true
  | String _ _, EmptyString => false
  | String a word', String c text' =>
    Ascii.eqb (fold_case a) (fold_case c) && matches_here word' text'
  end.

(** [/word/i.test(text)] for a pattern that is a plain word: the word
    matches at some position of the text. *)
Fixpoint test (word text : string) : bool :=
  matches_here word text
  || match text with
     | EmptyString => false
     | String _ text' => test word text'
     end.

(** [isiOS()], [isAndroid()] and [isMobile()], as functions of
    [navigator.userAgent]. *)
Definition isiOS (userAgent : string) : bool :=
  test "iPhone" userAgent || test "iPad" userAgent || test "iPod" userAgent.

Definition isAndroid (userAgent : string) : bool := test "Android" userAgent.

Definition isMobile (userAgent : string) : bool :=
  isAndroid userAgent || isiOS userAgent.

(** ** Vocabulary of the statements *)

(** A flag configuration is valid for a table when every flag it
    enumerates is in the table and holds one of the values listed for
    it. *)
Definition allowed (table : gmap string (list value))
  (flagConfig : JSObject) (flag : string) : bool :=
  match table !! flag with
  | Some range => negb (indexOf range (get flagConfig flag) =? -1)
  | None => false
  end.

Definition valid_flagConfig (table : gmap string (list value))
  (flagConfig : JSObject) : bool :=
  forallb (allowed table flagConfig) (keys flagConfig).

(** How the validation loop ends, in terms of the first flag that fails
    a test. *)
Section Verdict.

Variable TUNABLE_FLAG_VALUE_RANGE_MAP : gmap string (list value).

#[local] Abbreviation MAP := TUNABLE_FLAG_VALUE_RANGE_MAP.

Inductive verdict (flagConfig : JSObject) (flags : list string)
  : Outcome unit → Prop :=
| verdict_pass :
    forallb (allowed MAP flagConfig) flags = true →
    verdict flagConfig flags (Returned ())
| verdict_unknown passed flag rest :
    flags = passed ++ flag :: rest →
    forallb (allowed MAP flagConfig) passed = true →
    MAP !! flag = None →
    verdict flagConfig flags (Threw (UnknownFlag flag))
| verdict_invalid passed flag rest range :
    flags = passed ++ flag :: rest →
    forallb (allowed MAP flagConfig) passed = true →
    MAP !! flag = Some range →
    indexOf range (get flagConfig flag) = -1 →
    verdict flagConfig flags
      (Threw (InvalidFlagValue flag range (get flagConfig flag))).

End Verdict.

(** The engine a library call leaves behind. *)
Definition engine_after (r : tf.Result) : tf.Engine :=
  match r with
  | tf.Done e => e
  | tf.Failed _ e => e
  end.

(** The world right after [tf.env().setFlags(flagConfig)]: the flags of
    the engine are those of the configuration, and the call is on
    record. *)
Definition flags_applied (flagConfig : JSObject) (w : World) : World :=
  mkWorld (tf.setFlags flagConfig (ENGINE w)) (STATE w)
          (calls w ++ [CallSetFlags flagConfig]).

(** [e] is one of the three errors of argument and flag validation. *)
Definition validation_error (e : Error) : bool :=
  match e with
  | InvalidArgument _ | UnknownFlag _ | InvalidFlagValue _ _ _ => true
  | BackendNotRegistered _ | EngineFailure _ => false
  end.

(** The patterns of the device tests. *)
Definition mobile_words : list string :=
  ["Android"; "iPhone"; "iPad"; "iPod"]%string.

(** A text with its letters A to Z replaced by a to z. *)
Fixpoint fold_string (s : string) : string :=
  match s with
  | EmptyString => EmptyString
  | String c s' => String (fold_case c) (fold_string s')
  end.

(** The piece of a backend name that stands before its first
    separator. *)
Fixpoint before_sep (sep : Ascii.ascii) (s : string) : string :=
  match s with
  | EmptyString => EmptyString
  | String c s' =>
    if Ascii.eqb c sep then EmptyString else String c (before_sep sep s')
  end.

(** The condition under which [drawResults] draws the image. *)
Definition image_ready (img : Image) : bool :=
  complete img && (0 <? naturalWidth img)%N.

(** The face has the keypoints read as its eyes. *)
Definition has_eyes (face : Face) : bool :=
  match keypoints face !! 1%nat, keypoints face !! 2%nat with
  | Some _, Some _ => true
  | _, _ => false
  end.

Definition is_DrawImage (c : CanvasCall) : bool :=
  match c with
  | DrawImage _ _ _ _ => true
  | _ => false
  end.

(** The points a path goes through, in order. *)
Fixpoint vertices (region : Path2D) : list (float * float) :=
  match region with
  | [] => []
  | MoveTo px py :: region' => (px, py) :: vertices region'
  | LineTo px py :: region' => (px, py) :: vertices region'
  | ClosePath :: region' => vertices region'
  end.

(** The calls a reset adds for a name that is [in] the table of
    factories: the activation alone when the name is not [in] the table
    of live backends; otherwise the removal, followed by the registration
    and the activation unless the removal throws. *)
Definition reset_calls (backendName : string) (f : tf.Factory) (live : bool)
  (more : list Call) : Prop :=
  if live then
    more = [CallRemoveBackend backendName]
    ∨ more = [CallRemoveBackend backendName;
              CallRegisterBackend backendName f; CallSetBackend backendName]
  else more = [CallSetBackend backendName].

(** ** Sample data

    A table with three of the demo's tunable flags, an engine with a live
    [webgl] backend, a registered [cpu] backend and a registered [wasm]
    backend whose factory fails, some flag configurations, and faces. *)

Definition sample_table : gmap string (list value) :=
  <["WEBGL_VERSION"%string := [VNum 1; VNum 2]]>
    (<["WEBGL_PACK"%string := [VBool true; VBool false]]>
       (<["WASM_HAS_SIMD_SUPPORT"%string := [VBool true; VBool false]]> ∅)).

Definition sample_engine : tf.Engine :=
  tf.mkEngine
    (<["webgl"%string := tf.BackendFactory 1 true]>
       (<["cpu"%string := tf.BackendFactory 2 true]>
          (<["wasm"%string := tf.BackendFactory 3 false]> ∅)))
    (<["webgl"%string := 1%nat]> ∅)
    (Some "webgl"%string)
    [].

Definition sample_world : World :=
  mkWorld sample_engine (mkState (VStr "tfjs-webgl") VUndefined) [].

Definition sample_flags : JSObject :=
  [("WEBGL_VERSION"%string, VNum 1); ("WEBGL_PACK"%string, VBool false)].

(** [{WEBGL_VERSION: 3, BOGUS: true}] *)
Definition mixed_flags : JSObject :=
  [("WEBGL_VERSION"%string, VNum 3); ("BOGUS"%string, VBool true)].

(** [{WEBGL_PACK: true, BOGUS: true}] *)
Definition unknown_flags : JSObject :=
  [("WEBGL_PACK"%string, VBool true); ("BOGUS"%string, VBool true)].

(** [{WEBGL_PACK: true, WEBGL_VERSION: 3}] *)
Definition invalid_flags : JSObject :=
  [("WEBGL_PACK"%string, VBool true); ("WEBGL_VERSION"%string, VNum 3)].

Definition sample_face : Face :=
  mkFace [mkKeypoint 20 25; mkKeypoint 10 10; mkKeypoint 30 10;
          mkKeypoint 20 40].

(** A face for which the model reported two keypoints only. *)
Definition short_face : Face := mkFace [mkKeypoint 20 25; mkKeypoint 10 10].

Definition unloaded : Image := mkImage false 0.

Definition triangle : list (float * float) :=
  [(0, 0); (4, 0); (4, 3)]%float.

(** * Properties *)

(** ** Values and lookups *)

Lemma indexOf_from_absent (l : list value) (v : value) (i : Z) :
  0 ≤ i →
  indexOf_from i l v = -1 ↔ ∀ x, x ∈ l → strict_equals x v = false.
Proof.
  revert i. induction l as [|x l IH]; intros i Hi; simpl.
  - split; [|done]. intros _ y Hy. by apply elem_of_nil in Hy.
  - destruct (strict_equals x v) eqn:Hx.
    + split; [lia|]. intros H. specialize (H x). rewrite Hx in H.
      discriminate H. by left.
    + rewrite IH by lia. split.
      * intros H y Hy. apply elem_of_cons in Hy as [->|Hy]; auto.
      * intros H y Hy. apply H. by right.
Qed.

(** [indexOf] answers [-1] exactly when no element of the array is
    strictly equal to the value. *)
Lemma indexOf_absent (l : list value) (v : value) :
  indexOf l v = -1 ↔ ∀ x, x ∈ l → strict_equals x v = false.
Proof. by apply indexOf_from_absent. Qed.

Lemma js_in_own {V} (k : string) (m : gmap string V) :
  is_Some (m !! k) → js_in k m = true.
Proof.
  intros H. unfold js_in. by rewrite (bool_decide_eq_true_2 _ H).
Qed.

Lemma js_in_false {V} (k : string) (m : gmap string V) :
  js_in k m = false ↔ m !! k = None ∧ inherited k = false.
Proof.
  unfold js_in. rewrite orb_false_iff, bool_decide_eq_false.
  by rewrite eq_None_not_Some.
Qed.

(** ** The monad *)

Lemma bind_returned {A B} (m : M A) (k : A → M B) (w w' : World) (a : A) :
  m w = (Returned a, w') → (m ≫= k) w = k a w'.
Proof. intros H. unfold mbind, M_bind. by rewrite H. Qed.

Lemma bind_threw {A B} (m : M A) (k : A → M B) (w w' : World) (e : Error) :
  m w = (Threw e, w') → (m ≫= k) w = (Threw e, w').
Proof. intros H. unfold mbind, M_bind. by rewrite H. Qed.

#[local] Ltac unfold_calls :=
  unfold tf_env_setFlags, tf_findBackendFactory, tf_removeBackend,
    tf_registerBackend, tf_setBackend, alert, showBackendConfigs,
    page_call, library_call, read_ENGINE, read_STATE, write_STATE, throw,
    mbind, M_bind, mret, M_ret.

(** ** The validation loop *)

Section ConfiguratorProperties.

Variable TUNABLE_FLAG_VALUE_RANGE_MAP : gmap string (list value).

#[local] Abbreviation MAP := TUNABLE_FLAG_VALUE_RANGE_MAP.


(** The loop only reads: it leaves the world as it found it, and its
    outcome is the verdict on the flags. *)
Lemma check_flags_verdict (flagConfig : JSObject) (flags : list string)
  (w : World) :
  ∃ o, check_flags MAP flagConfig flags w = (o, w)
       ∧ verdict MAP flagConfig flags o.
Proof.
  induction flags as [|flag rest IH]; simpl.
  - eexists. split; [done|]. by constructor.
  - destruct (MAP !! flag) as [range|] eqn:Hflag.
    + destruct (indexOf range (get flagConfig flag) =? -1) eqn:Hidx.
      * eexists. split; [done|].
        apply verdict_invalid with (passed := []) (rest := rest); auto.
        by apply Z.eqb_eq.
      * assert (Hhead : allowed MAP flagConfig flag = true).
        { unfold allowed. by rewrite Hflag, Hidx. }
        destruct IH as (o & Hrun & Hv). exists o. split; [done|].
        destruct Hv as [Hall|passed f rest' -> Hpassed Hf
                       |passed f rest' r -> Hpassed Hf Hr].
        -- constructor. simpl. by rewrite Hhead.
        -- apply verdict_unknown with (passed := flag :: passed)
             (rest := rest'); auto.
           simpl. by rewrite Hhead.
        -- apply verdict_invalid with (passed := flag :: passed)
             (rest := rest'); auto.
           simpl. by rewrite Hhead.
    + eexists. split; [done|].
      by apply verdict_unknown with (passed := []) (rest := rest).
Qed.

Lemma allowed_true (flagConfig : JSObject) (flag : string) :
  allowed MAP flagConfig flag = true ↔
  ∃ range, MAP !! flag = Some range
           ∧ indexOf range (get flagConfig flag) ≠ -1.
Proof.
  unfold allowed.
  destruct (MAP !! flag) as [range|].
  - rewrite negb_true_iff, Z.eqb_neq. split; [eauto|].
    by intros (r & [= <-] & H).
  - split; [done|]. by intros (r & [=] & _).
Qed.

Lemma check_flags_valid (flagConfig : JSObject) (w : World) :
  valid_flagConfig MAP flagConfig = true →
  check_flags MAP flagConfig (keys flagConfig) w = (Returned (), w).
Proof.
  intros Hvalid.
  destruct (check_flags_verdict flagConfig (keys flagConfig) w)
    as (o & Hrun & Hv).
  rewrite Hrun. unfold valid_flagConfig in Hvalid.
  destruct Hv as [Hall|passed f rest' Hsplit Hpassed Hf
                 |passed f rest' r Hsplit Hpassed Hf Hr]; [done|..];
    rewrite Hsplit, forallb_app in Hvalid;
    apply andb_true_iff in Hvalid as [_ Hvalid]; simpl in Hvalid;
    apply andb_true_iff in Hvalid as [Hvalid _];
    apply allowed_true in Hvalid as (r' & Hr' & Hidx); congruence.
Qed.

(** Flags that pass both tests are stepped over. *)
Lemma check_flags_passed (flagConfig : JSObject)
  (passed rest : list string) (w : World) :
  forallb (allowed MAP flagConfig) passed = true →
  check_flags MAP flagConfig (passed ++ rest) w
  = check_flags MAP flagConfig rest w.
Proof.
  induction passed as [|flag passed IH]; simpl; [done|].
  intros [Hflag Hpassed]%andb_true_iff.
  apply allowed_true in Hflag as (range & Hrange & Hidx).
  apply Z.eqb_neq in Hidx. rewrite Hrange, Hidx. auto.
Qed.

End ConfiguratorProperties.

(** ** Resetting a backend *)

(** An unregistered [webgpu]: the advice is shown, the selection falls
    back, the option panel is refreshed, and nothing else happens. *)
Lemma resetBackend_webgpu_fallback (w : World) :
  tf.registryFactory (ENGINE w) !! "webgpu"%string = None →
  resetBackend "webgpu" w =
    (Returned (),
     mkWorld (ENGINE w)
             (mkState (if truthy (lastTFJSBackend (STATE w))
                       then lastTFJSBackend (STATE w) else VStr "tfjs-webgl")
                      (lastTFJSBackend (STATE w)))
             (calls w ++ [CallAlert webgpu_advice; CallShowBackendConfigs])).
Proof.
  intros Hreg.
  assert (Hin : js_in "webgpu" (tf.registryFactory (ENGINE w)) = false).
  { by apply js_in_false. }
  unfold resetBackend. unfold_calls. simpl. rewrite Hin. simpl.
  by rewrite <- app_assoc.
Qed.

(** Any other name that is not [in] the table of factories is refused
    before anything is touched. *)
Lemma resetBackend_not_registered (backendName : string) (w : World) :
  js_in backendName (tf.registryFactory (ENGINE w)) = false →
  backendName ≠ "webgpu"%string →
  resetBackend backendName w = (Threw (BackendNotRegistered backendName), w).
Proof.
  intros Hreg Hname. apply String.eqb_neq in Hname. unfold resetBackend.
  unfold_calls. simpl. by rewrite Hreg, Hname.
Qed.

(** A name that is [in] the table of factories: the library calls that
    follow, each of which may throw. *)
Lemma resetBackend_registered (backendName : string) (w : World) :
  js_in backendName (tf.registryFactory (ENGINE w)) = true →
  resetBackend backendName w =
    let f := tf.findBackendFactory backendName (ENGINE w) in
    let recorded :=
      mkState (backend (STATE w)) (VStr ("tfjs-" +:+ backendName)) in
    if js_in backendName (tf.registry (ENGINE w)) then
      match tf.removeBackend backendName (ENGINE w) with
      | tf.Failed msg e1 =>
        (Threw (EngineFailure msg),
         mkWorld e1 (STATE w) (calls w ++ [CallRemoveBackend backendName]))
      | tf.Done e1 =>
        let reset :=
          [CallRemoveBackend backendName; CallRegisterBackend backendName f;
           CallSetBackend backendName] in
        match tf.registerBackend backendName f e1 with
        | tf.Failed msg e2 =>
          (Threw (EngineFailure msg),
           mkWorld e2 (STATE w)
                   (calls w ++ [CallRemoveBackend backendName;
                                CallRegisterBackend backendName f]))
        | tf.Done e2 =>
          match tf.setBackend backendName e2 with
          | tf.Failed msg e3 =>
            (Threw (EngineFailure msg),
             mkWorld e3 (STATE w) (calls w ++ reset))
          | tf.Done e3 => (Returned (), mkWorld e3 recorded (calls w ++ reset))
          end
        end
      end
    else
      match tf.setBackend backendName (ENGINE w) with
      | tf.Failed msg e1 =>
        (Threw (EngineFailure msg),
         mkWorld e1 (STATE w) (calls w ++ [CallSetBackend backendName]))
      | tf.Done e1 =>
        (Returned (),
         mkWorld e1 recorded (calls w ++ [CallSetBackend backendName]))
      end.
Proof.
  intros Hreg. unfold resetBackend. unfold_calls. cbn [ENGINE STATE calls].
  rewrite Hreg. cbn [negb].
  destruct (js_in backendName (tf.registry (ENGINE w))).
  - destruct (tf.removeBackend backendName (ENGINE w)) as [e1|msg e1];
      [|reflexivity].
    cbn [ENGINE STATE calls].
    destruct (tf.registerBackend backendName _ e1) as [e2|msg e2];
      cbn [ENGINE STATE calls]; [|by rewrite <- app_assoc].
    destruct (tf.setBackend backendName e2) as [e3|msg e3];
      cbn [ENGINE STATE calls]; by rewrite <- !app_assoc.
  - destruct (tf.setBackend backendName (ENGINE w)) as [e1|msg e1];
      reflexivity.
Qed.

(** The library calls of a reset, one by one. *)

Lemma removeBackend_live (name : string) (e : tf.Engine) :
  is_Some (tf.registryFactory e !! name) →
  is_Some (tf.registry e !! name) →
  tf.removeBackend name e = tf.Done (engine_after (tf.removeBackend name e)).
Proof.
  intros Hreg Hlive. unfold tf.removeBackend.
  rewrite (js_in_own _ _ Hreg), (bool_decide_eq_true_2 _ Hlive).
  by rewrite andb_false_r.
Qed.

Lemma registerBackend_done (name : string) (f : tf.Factory) (e : tf.Engine) :
  tf.registerBackend name f e
  = tf.Done (engine_after (tf.registerBackend name f e)).
Proof. unfold tf.registerBackend. by destruct (js_in _ _). Qed.

Lemma removeBackend_others (name k : string) (e : tf.Engine) :
  k ≠ name →
  tf.registryFactory (engine_after (tf.removeBackend name e)) !! k
  = tf.registryFactory e !! k.
Proof.
  intros Hk. unfold tf.removeBackend.
  destruct (js_in name (tf.registryFactory e)); [|done].
  destruct (_ && _); [done|]. simpl. by rewrite lookup_delete_ne.
Qed.

Lemma registerBackend_others (name k : string) (f : tf.Factory)
  (e : tf.Engine) :
  k ≠ name →
  tf.registryFactory (engine_after (tf.registerBackend name f e)) !! k
  = tf.registryFactory e !! k.
Proof.
  intros Hk. unfold tf.registerBackend.
  destruct (js_in name (tf.registryFactory e)); [done|].
  simpl. by rewrite lookup_insert_ne.
Qed.

Lemma setBackend_factories (name : string) (e : tf.Engine) :
  tf.registryFactory (engine_after (tf.setBackend name e))
  = tf.registryFactory e.
Proof.
  unfold tf.setBackend.
  destruct (js_in name (tf.registryFactory e)); [|done].
  destruct (js_in name (tf.registry e)); [done|].
  destruct (tf.registryFactory e !! name) as [[|id [|]]|]; done.
Qed.

(** A registered backend with a live instance is removed, registered
    again with the factory that was stored for it, and then activated. *)
Lemma resetBackend_live (backendName : string) (f : tf.Factory) (w : World) :
  tf.registryFactory (ENGINE w) !! backendName = Some f →
  is_Some (tf.registry (ENGINE w) !! backendName) →
  resetBackend backendName w =
    let reset :=
      [CallRemoveBackend backendName; CallRegisterBackend backendName f;
       CallSetBackend backendName] in
    match tf.setBackend backendName
            (engine_after
               (tf.registerBackend backendName f
                  (engine_after
                     (tf.removeBackend backendName (ENGINE w))))) with
    | tf.Done e =>
      (Returned (),
       mkWorld e (mkState (backend (STATE w)) (VStr ("tfjs-" +:+ backendName)))
               (calls w ++ reset))
    | tf.Failed msg e =>
      (Threw (EngineFailure msg), mkWorld e (STATE w) (calls w ++ reset))
    end.
Proof.
  intros Hf Hlive.
  assert (Hreg : is_Some (tf.registryFactory (ENGINE w) !! backendName))
    by eauto.
  rewrite resetBackend_registered by by apply js_in_own.
  rewrite (js_in_own _ _ Hlive). cbv zeta.
  unfold tf.findBackendFactory at 1 2 3. rewrite Hf. cbn [default].
  rewrite (removeBackend_live _ _ Hreg Hlive).
  rewrite (registerBackend_done backendName f). cbn [engine_after].
  match goal with
  | |- context [tf.setBackend ?b ?e] => destruct (tf.setBackend b e)
  end; reflexivity.
Qed.

(** How a call of [resetBackend] can end: the four ways out of the
    function.  Whatever the library does, the entries of the table of
    factories under other names stay as they are. *)
Lemma resetBackend_cases (backendName : string) (w : World) :
  (backendName = "webgpu"%string
   ∧ tf.registryFactory (ENGINE w) !! backendName = None
   ∧ resetBackend backendName w =
       (Returned (),
        mkWorld (ENGINE w)
          (mkState (if truthy (lastTFJSBackend (STATE w))
                    then lastTFJSBackend (STATE w) else VStr "tfjs-webgl")
                   (lastTFJSBackend (STATE w)))
          (calls w ++ [CallAlert webgpu_advice; CallShowBackendConfigs])))
  ∨ (js_in backendName (tf.registryFactory (ENGINE w)) = false
     ∧ backendName ≠ "webgpu"%string
     ∧ resetBackend backendName w
       = (Threw (BackendNotRegistered backendName), w))
  ∨ (js_in backendName (tf.registryFactory (ENGINE w)) = true
     ∧ ∃ e1 more,
         resetBackend backendName w =
           (Returned (),
            mkWorld e1
              (mkState (backend (STATE w)) (VStr ("tfjs-" +:+ backendName)))
              (calls w ++ more))
         ∧ reset_calls backendName
             (tf.findBackendFactory backendName (ENGINE w))
             (js_in backendName (tf.registry (ENGINE w))) more
         ∧ ∀ k, k ≠ backendName →
             tf.registryFactory e1 !! k = tf.registryFactory (ENGINE w) !! k)
  ∨ (js_in backendName (tf.registryFactory (ENGINE w)) = true
     ∧ ∃ e1 msg more,
         resetBackend backendName w =
           (Threw (EngineFailure msg),
            mkWorld e1 (STATE w) (calls w ++ more))
         ∧ reset_calls backendName
             (tf.findBackendFactory backendName (ENGINE w))
             (js_in backendName (tf.registry (ENGINE w))) more).
Proof.
  destruct (js_in backendName (tf.registryFactory (ENGINE w))) eqn:Hreg.
  - right. right. rewrite (resetBackend_registered _ _ Hreg). cbv zeta.
    unfold reset_calls.
    destruct (js_in backendName (tf.registry (ENGINE w))).
    + pose proof (λ k, removeBackend_others backendName k (ENGINE w)) as Hrm.
      destruct (tf.removeBackend backendName (ENGINE w)) as [e1|msg e1].
      * pose proof (λ k, registerBackend_others backendName k
                           (tf.findBackendFactory backendName (ENGINE w)) e1)
          as Hrg.
        destruct (tf.registerBackend backendName _ e1) as [e2|msg e2] eqn:Hr;
          [|rewrite registerBackend_done in Hr; discriminate Hr].
        pose proof (setBackend_factories backendName e2) as Hset.
        destruct (tf.setBackend backendName e2) as [e3|msg e3].
        -- left. split; [done|]. eexists _, _. split; [done|].
           split; [by right|]. intros k Hk. simpl in Hset.
           simpl in Hrg, Hrm. rewrite Hset, (Hrg k Hk). by apply Hrm.
        -- right. split; [done|]. eexists _, _, _. split; [done|]. by right.
      * right. split; [done|]. eexists _, _, _. split; [done|]. by left.
    + pose proof (setBackend_factories backendName (ENGINE w)) as Hset.
      destruct (tf.setBackend backendName (ENGINE w)) as [e1|msg e1].
      * left. split; [done|]. eexists _, _. split; [done|]. split; [done|].
        intros k _. simpl in Hset. by rewrite Hset.
      * right. split; [done|]. eexists _, _, _. split; [done|]. done.
  - destruct (String.eqb_spec backendName "webgpu") as [->|Hname].
    + apply js_in_false in Hreg as [Hreg _].
      left. split; [done|]. split; [done|].
      by apply resetBackend_webgpu_fallback.
    + right. left. split; [done|]. split; [done|].
      by apply resetBackend_not_registered.
Qed.

(** C10 fails on the code: [STATE.lastTFJSBackend] is also written
    after an activation that failed.  When the factory of a registered
    backend without a live instance fails, [tf.setBackend] does not
    throw: it resolves (to [false], which line 57 discards), so
    [resetBackend] returns and line 58 sets the record to "tfjs-" followed
    by the name of a backend that failed to activate and has no live
    instance. *)
Theorem failed_activation_is_recorded (backendName : string) (id : nat)
  (w : World) :
  tf.registryFactory (ENGINE w) !! backendName
  = Some (tf.BackendFactory id false) →
  js_in backendName (tf.registry (ENGINE w)) = false →
  ∃ w',
    resetBackend backendName w = (Returned (), w')
    ∧ lastTFJSBackend (STATE w') = VStr ("tfjs-" +:+ backendName)
    ∧ tf.registry (ENGINE w') !! backendName = None
    ∧ calls w' = calls w ++ [CallSetBackend backendName].
Proof.
  intros Hf Hlive.
  assert (Hreg : js_in backendName (tf.registryFactory (ENGINE w)) = true).
  { apply js_in_own. by rewrite Hf. }
  rewrite (resetBackend_registered _ _ Hreg). cbv zeta. rewrite Hlive.
  unfold tf.setBackend. rewrite Hreg, Hlive, Hf.
  eexists. split; [reflexivity|]. cbn [STATE ENGINE calls lastTFJSBackend].
  split; [done|]. split; [|done].
  by apply js_in_false in Hlive as [Hlive _].
Qed.

(** On the sample engine the factory of [wasm] fails: resetting it
    returns, and the record that was [undefined] reads "tfjs-wasm". *)
Lemma failed_activation_is_recorded_witness :
  ∃ w',
    resetBackend "wasm" sample_world = (Returned (), w')
    ∧ lastTFJSBackend (STATE w') = VStr "tfjs-wasm"
    ∧ tf.registry (ENGINE w') !! "wasm"%string = None
    ∧ calls w' = [CallSetBackend "wasm"].
Proof.
  apply (failed_activation_is_recorded "wasm" 3 sample_world);
    reflexivity.
Defined.

(** ** The configurator *)

Section ConfiguratorClaims.

Variable TUNABLE_FLAG_VALUE_RANGE_MAP : gmap string (list value).

#[local] Abbreviation MAP := TUNABLE_FLAG_VALUE_RANGE_MAP.


(** A call with an object: the verdict of the validation loop decides
    whether anything happens at all.  After a pass, the flags are
    applied and the backend name is taken apart. *)
Lemma setBackendAndEnvFlags_object (addr : nat) (props : JSObject)
  (backend : string) (w : World) :
  ∃ o, verdict MAP props (keys props) o
       ∧ setBackendAndEnvFlags MAP (VObject addr props) backend w =
         match o with
         | Threw e => (Threw e, w)
         | Returned _ =>
           match split "-" backend with
           | runtime :: pieces =>
             if String.eqb runtime "tfjs" then
               resetBackend (match pieces with
                             | backend' :: _ => backend'
                             | [] => "undefined"%string
                             end)
             else mret ()
           | [] => mret ()
           end (flags_applied props w)
         end.
Proof.
  destruct (check_flags_verdict TUNABLE_FLAG_VALUE_RANGE_MAP props
              (keys props) w) as (o & Hrun & Hv).
  exists o. split; [done|].
  unfold setBackendAndEnvFlags. simpl.
  destruct o as [[]|e].
  - rewrite (bind_returned _ _ _ _ _ Hrun). reflexivity.
  - by rewrite (bind_threw _ _ _ _ _ Hrun).
Qed.

Lemma verdict_threw_flag (props : JSObject) (flags : list string)
  (e : Error) :
  verdict MAP props flags (Threw e) →
  (∃ flag, e = UnknownFlag flag ∧ flag ∈ flags
           ∧ MAP !! flag = None)
  ∨ (∃ flag range,
       e = InvalidFlagValue flag range (get props flag) ∧ flag ∈ flags
       ∧ MAP !! flag = Some range
       ∧ indexOf range (get props flag) = -1).
Proof.
  inversion 1 as [|passed flag rest -> Hpassed Hflag
                 |passed flag rest range -> Hpassed Hflag Hidx]; subst.
  - left. exists flag. split; [done|]. split; [|done].
    apply elem_of_app. right. by left.
  - right. exists flag, range. split; [done|]. split; [|done].
    apply elem_of_app. right. by left.
Qed.

Lemma forallb_allowed (props : JSObject) (flags : list string) :
  forallb (allowed MAP props) flags = true ↔
  ∀ flag, flag ∈ flags →
    ∃ range, MAP !! flag = Some range
             ∧ indexOf range (get props flag) ≠ -1.
Proof.
  rewrite forallb_forall. split; intros H flag Hflag.
  - apply allowed_true, H. by apply list_elem_of_In.
  - apply allowed_true, H. by apply list_elem_of_In.
Qed.

(** C6: with [null] (or [undefined]) for [flagConfig] the call returns
    for every backend string and leaves the engine, [STATE] and the record
    of calls exactly as they were. *)
Theorem null_flagConfig_is_noop (backend : string) (w : World) :
  setBackendAndEnvFlags MAP VNull backend w = (Returned (), w)
  ∧ setBackendAndEnvFlags MAP VUndefined backend w = (Returned (), w).
Proof. split; reflexivity. Qed.

Lemma setBackendAndEnvFlags_rejected (addr : nat) (props : JSObject)
  (backend : string) (w : World) (e : Error) :
  check_flags MAP props (keys props) w = (Threw e, w) →
  setBackendAndEnvFlags MAP (VObject addr props) backend w = (Threw e, w).
Proof.
  intros Hrun. unfold setBackendAndEnvFlags. simpl.
  by rewrite (bind_threw _ _ _ _ _ Hrun).
Qed.

(** C1, as amended: a flag configuration with a key outside the table is
    rejected and nothing is mutated: the world after the call is the world
    before it, so [setFlags] was not called and no backend was reset.  The
    error is [UnknownFlag] or [InvalidFlagValue], for a key of the
    configuration that really fails that test, and it is decided by the
    first key that fails one: [UnknownFlag] when that key is outside the
    table, [InvalidFlagValue] when it is in the table with a value that is
    not listed for it. *)
Theorem unknown_flag_rejected_without_mutation (addr : nat)
  (props : JSObject) (backend : string) (w : World) :
  (∃ flag, flag ∈ keys props ∧ MAP !! flag = None) →
  (∃ e,
     setBackendAndEnvFlags MAP (VObject addr props) backend w = (Threw e, w)
     ∧ ((∃ flag, e = UnknownFlag flag ∧ flag ∈ keys props
                 ∧ MAP !! flag = None)
        ∨ (∃ flag range,
             e = InvalidFlagValue flag range (get props flag)
             ∧ flag ∈ keys props ∧ MAP !! flag = Some range
             ∧ ∀ x, x ∈ range → strict_equals x (get props flag) = false)))
  ∧ (∀ before flag v after,
       props = before ++ (flag, v) :: after →
       forallb (allowed MAP props) (keys before) = true →
       (MAP !! flag = None →
        setBackendAndEnvFlags MAP (VObject addr props) backend w
        = (Threw (UnknownFlag flag), w))
       ∧ (∀ range,
            MAP !! flag = Some range →
            (∀ x, x ∈ range → strict_equals x (get props flag) = false) →
            setBackendAndEnvFlags MAP (VObject addr props) backend w
            = (Threw (InvalidFlagValue flag range (get props flag)), w))).
Proof.
  intros (bad & Hbad & Hnone). split.
  - destruct (setBackendAndEnvFlags_object addr props backend w)
      as (o & Hv & Hrun).
    destruct o as [[]|e].
    + inversion Hv as [Hall| |].
      destruct (proj1 (forallb_allowed props (keys props)) Hall bad Hbad)
        as (range & Hrange & _).
      congruence.
    + exists e. split; [done|].
      destruct (verdict_threw_flag props (keys props) e Hv)
        as [(flag & -> & Hin & Hflag)
           |(flag & range & -> & Hin & Hflag & Hidx)].
      * left. eauto.
      * right. exists flag, range. repeat split; try done.
        by apply indexOf_absent.
  - intros before flag v after Hprops Hbefore.
    assert (Hkeys : keys props = keys before ++ flag :: keys after).
    { rewrite Hprops. unfold keys. by rewrite fmap_app. }
    split.
    + intros Hflag. apply setBackendAndEnvFlags_rejected.
      rewrite Hkeys, check_flags_passed by done. simpl. by rewrite Hflag.
    + intros range Hflag Hvalue. apply setBackendAndEnvFlags_rejected.
      rewrite Hkeys, check_flags_passed by done. simpl. rewrite Hflag.
      apply indexOf_absent in Hvalue. by rewrite Hvalue.
Qed.

(** C2: a flag configuration whose keys are all in the table, one of
    them with a value that is strictly equal to none of the values listed
    for it, is rejected with [InvalidFlagValue] for such a key, and
    nothing is mutated: the world after the call is the world before
    it. *)
Theorem invalid_flag_value_rejected_without_mutation (addr : nat)
  (props : JSObject) (backend : string) (w : World) :
  (∀ flag, flag ∈ keys props → is_Some (MAP !! flag)) →
  (∃ flag range,
     flag ∈ keys props ∧ MAP !! flag = Some range
     ∧ ∀ x, x ∈ range → strict_equals x (get props flag) = false) →
  ∃ flag range,
    setBackendAndEnvFlags MAP (VObject addr props) backend w
    = (Threw (InvalidFlagValue flag range (get props flag)), w)
    ∧ flag ∈ keys props ∧ MAP !! flag = Some range
    ∧ ∀ x, x ∈ range → strict_equals x (get props flag) = false.
Proof.
  intros Hkeys (bad & range & Hbad & Hrange & Hvalue).
  destruct (setBackendAndEnvFlags_object addr props backend w)
    as (o & Hv & Hrun).
  destruct o as [[]|e].
  - inversion Hv as [Hall| |].
    destruct (proj1 (forallb_allowed props (keys props)) Hall bad Hbad)
      as (range' & Hrange' & Hidx).
    assert (range' = range) as -> by congruence.
    destruct Hidx. by apply indexOf_absent.
  - destruct (verdict_threw_flag props (keys props) e Hv)
      as [(flag & -> & Hin & Hflag)|(flag & r & -> & Hin & Hflag & Hidx)].
    + destruct (Hkeys flag Hin) as [r Hr]. congruence.
    + exists flag, r. repeat split; try done. by apply indexOf_absent.
Qed.

(** C3, as amended: the three validation errors ([InvalidArgument],
    [UnknownFlag], [InvalidFlagValue]) are raised before any mutating side
    effect: the world after the call is the world before it.
    [BackendNotRegistered] is raised after the flags have been applied:
    the registered factories, the live backends, the active backend and
    [STATE] are unchanged, the flags of the engine are those of
    [flagConfig], and [setFlags] is the one call on record. *)
Theorem errors_raised_before_mutation (flagConfig : value)
  (backend : string) (w w' : World) (e : Error) :
  setBackendAndEnvFlags MAP flagConfig backend w = (Threw e, w') →
  (validation_error e = true → w' = w)
  ∧ (∀ backendName, e = BackendNotRegistered backendName →
       tf.registryFactory (ENGINE w') = tf.registryFactory (ENGINE w)
       ∧ tf.registry (ENGINE w') = tf.registry (ENGINE w)
       ∧ tf.backendName (ENGINE w') = tf.backendName (ENGINE w)
       ∧ STATE w' = STATE w
       ∧ tf.flags (ENGINE w') = properties flagConfig
       ∧ calls w' = calls w ++ [CallSetFlags (properties flagConfig)]).
Proof.
  destruct flagConfig as [| |b|n|s|addr|addr props];
    try (intros [= <- <-]; by split);
    try (intros H; discriminate H).
  destruct (setBackendAndEnvFlags_object addr props backend w)
    as (o & Hv & ->).
  destruct o as [[]|e0].
  - destruct (split "-" backend) as [|runtime pieces];
      [intros H; discriminate H|].
    destruct (runtime =? "tfjs")%string; [|intros H; discriminate H].
    set (backendName := match pieces with
                        | backend' :: _ => backend'
                        | [] => "undefined"%string
                        end).
    intros Hrun.
    destruct (resetBackend_cases backendName (flags_applied props w))
      as [(_ & _ & H)|[(_ & _ & H)|[(_ & e1 & more & H & _)
                                   |(_ & e1 & msg & more & H & _)]]];
      rewrite H in Hrun; try discriminate Hrun; injection Hrun as <- <-.
    + split; [intros Hval; discriminate Hval|]. intros b _. by simpl.
    + split; [intros Hval; discriminate Hval|]. intros b Hb. discriminate Hb.
  - intros [= <- <-].
    destruct (verdict_threw_flag props (keys props) e0 Hv)
      as [(flag & -> & _)|(flag & range & -> & _)];
      (split; [done|]); intros b Hb; discriminate Hb.
Qed.

(** C4: with a valid configuration and "tfjs-webgpu", on an engine that
    has no [webgpu] factory, the call returns.  [STATE.backend] becomes
    the last recorded tfjs backend when there is one and "tfjs-webgl"
    otherwise; after [setFlags] the calls on record are the advice and one
    [showBackendConfigs]; no backend is removed, registered or activated,
    and the engine only differs by its flags. *)
Theorem webgpu_falls_back (addr : nat) (props : JSObject) (w : World) :
  valid_flagConfig MAP props = true →
  tf.registryFactory (ENGINE w) !! "webgpu"%string = None →
  setBackendAndEnvFlags MAP (VObject addr props) "tfjs-webgpu" w =
    (Returned (),
     mkWorld (tf.setFlags props (ENGINE w))
             (mkState (if truthy (lastTFJSBackend (STATE w))
                       then lastTFJSBackend (STATE w) else VStr "tfjs-webgl")
                      (lastTFJSBackend (STATE w)))
             (calls w ++ [CallSetFlags props; CallAlert webgpu_advice;
                          CallShowBackendConfigs])).
Proof.
  intros Hvalid Hreg.
  unfold setBackendAndEnvFlags. simpl.
  rewrite (bind_returned _ _ _ _ _ (check_flags_valid MAP props w Hvalid)).
  change (split "-" "tfjs-webgpu") with ["tfjs"%string; "webgpu"%string].
  unfold tf_env_setFlags, library_call at 1. unfold mbind at 1, M_bind at 1.
  simpl.
  rewrite resetBackend_webgpu_fallback by done.
  simpl. by rewrite <- app_assoc.
Qed.

(** C5: with a valid configuration and "tfjs-webgl", on an engine where
    [webgl] has a stored factory and a live instance, the calls issued
    after [setFlags] are, in this order, the removal of [webgl], its
    registration with the stored factory and its activation; the engine
    left behind is the one these three calls produce in that order. *)
Theorem live_webgl_removed_registered_activated (addr : nat)
  (props : JSObject) (f : tf.Factory) (w : World) :
  valid_flagConfig MAP props = true →
  tf.registryFactory (ENGINE w) !! "webgl"%string = Some f →
  is_Some (tf.registry (ENGINE w) !! "webgl"%string) →
  ∃ o w',
    setBackendAndEnvFlags MAP (VObject addr props) "tfjs-webgl" w = (o, w')
    ∧ calls w' = calls w ++ [CallSetFlags props; CallRemoveBackend "webgl";
                             CallRegisterBackend "webgl" f;
                             CallSetBackend "webgl"]
    ∧ ENGINE w' =
        engine_after
          (tf.setBackend "webgl"
             (engine_after
                (tf.registerBackend "webgl" f
                   (engine_after
                      (tf.removeBackend "webgl"
                         (tf.setFlags props (ENGINE w))))))).
Proof.
  intros Hvalid Hf Hlive.
  unfold setBackendAndEnvFlags. simpl.
  rewrite (bind_returned _ _ _ _ _ (check_flags_valid MAP props w Hvalid)).
  change (split "-" "tfjs-webgl") with ["tfjs"%string; "webgl"%string].
  unfold tf_env_setFlags, library_call at 1. unfold mbind at 1, M_bind at 1.
  simpl.
  rewrite (resetBackend_live "webgl" f) by done. simpl.
  match goal with
  | |- context [tf.setBackend ?b ?e] => destruct (tf.setBackend b e)
  end; eexists _, _; (split; [reflexivity|]); simpl;
    by rewrite <- app_assoc.
Qed.

End ConfiguratorClaims.

(** ** The configurator on the sample data *)

Lemma unknown_flag_rejected_without_mutation_witness :
  setBackendAndEnvFlags sample_table (VObject 0 unknown_flags) "tfjs-webgl"
    sample_world
  = (Threw (UnknownFlag "BOGUS"), sample_world).
Proof.
  refine (proj1 (proj2 (unknown_flag_rejected_without_mutation sample_table 0
            unknown_flags "tfjs-webgl" sample_world _)
            [("WEBGL_PACK"%string, VBool true)] "BOGUS"%string (VBool true) []
            eq_refl _) _).
  - exists "BOGUS"%string. split; [|reflexivity].
    simpl. apply list_elem_of_further, list_elem_of_here.
  - reflexivity.
  - reflexivity.
Defined.

(** C1 as it was stated fails: [{WEBGL_VERSION: 3, BOGUS: true}] has a
    key outside the table, and the error raised is [InvalidFlagValue],
    for the flag that is enumerated first. *)
Lemma unknown_flag_behind_invalid_value :
  ("BOGUS"%string ∈ keys mixed_flags
   ∧ sample_table !! "BOGUS"%string = None)
  ∧ setBackendAndEnvFlags sample_table (VObject 0 mixed_flags) "tfjs-webgl"
      sample_world
    = (Threw (InvalidFlagValue "WEBGL_VERSION" [VNum 1; VNum 2] (VNum 3)),
       sample_world).
Proof.
  split; [split|].
  - simpl. apply list_elem_of_further, list_elem_of_here.
  - reflexivity.
  - vm_compute. reflexivity.
Qed.

Lemma invalid_flag_value_rejected_without_mutation_witness :
  ∃ flag range,
    setBackendAndEnvFlags sample_table (VObject 0 invalid_flags) "tfjs-webgl"
      sample_world
    = (Threw (InvalidFlagValue flag range (get invalid_flags flag)),
       sample_world).
Proof.
  destruct (invalid_flag_value_rejected_without_mutation sample_table 0
              invalid_flags "tfjs-webgl" sample_world)
    as (flag & range & Hrun & _).
  - intros flag Hin. apply elem_of_cons in Hin as [->|Hin].
    + by eexists.
    + apply list_elem_of_singleton in Hin as ->. by eexists.
  - exists "WEBGL_VERSION"%string, [VNum 1; VNum 2]. split; [|split].
    + simpl. apply list_elem_of_further, list_elem_of_here.
    + reflexivity.
    + intros v Hin. apply elem_of_cons in Hin as [->|Hin]; [reflexivity|].
      apply list_elem_of_singleton in Hin as ->. reflexivity.
  - by exists flag, range.
Defined.

Lemma errors_raised_before_mutation_witness :
  tf.registry
    (ENGINE (setBackendAndEnvFlags sample_table (VObject 0 sample_flags)
               "tfjs-foo" sample_world).2)
  = tf.registry sample_engine.
Proof.
  refine (proj1 (proj2 (proj2 (errors_raised_before_mutation sample_table
            (VObject 0 sample_flags) "tfjs-foo" sample_world
            (setBackendAndEnvFlags sample_table (VObject 0 sample_flags)
               "tfjs-foo" sample_world).2
            (BackendNotRegistered "foo") _) "foo"%string eq_refl))).
  vm_compute. reflexivity.
Defined.

(** C3 as it was stated fails: with the valid configuration
    [{WEBGL_VERSION: 1, WEBGL_PACK: false}] and the unregistered backend
    "tfjs-foo" the call ends with [BackendNotRegistered], and the flags of
    the engine are no longer the ones it had. *)
Lemma backend_not_registered_after_flags_applied :
  setBackendAndEnvFlags sample_table (VObject 0 sample_flags) "tfjs-foo"
    sample_world
  = (Threw (BackendNotRegistered "foo"),
     flags_applied sample_flags sample_world)
  ∧ tf.flags (ENGINE (flags_applied sample_flags sample_world))
    ≠ tf.flags (ENGINE sample_world).
Proof.
  split.
  - vm_compute. reflexivity.
  - simpl. discriminate.
Qed.

Lemma webgpu_falls_back_witness :
  (setBackendAndEnvFlags sample_table (VObject 0 sample_flags) "tfjs-webgpu"
     sample_world).1
  = Returned ()
  ∧ backend
      (STATE (setBackendAndEnvFlags sample_table (VObject 0 sample_flags)
                "tfjs-webgpu" sample_world).2)
    = VStr "tfjs-webgl".
Proof.
  rewrite (webgpu_falls_back sample_table 0 sample_flags sample_world);
    [|reflexivity|reflexivity].
  split; reflexivity.
Defined.

Lemma live_webgl_removed_registered_activated_witness :
  ∃ o w',
    setBackendAndEnvFlags sample_table (VObject 0 sample_flags) "tfjs-webgl"
      sample_world = (o, w')
    ∧ calls w' = [CallSetFlags sample_flags; CallRemoveBackend "webgl";
                  CallRegisterBackend "webgl" (tf.BackendFactory 1 true);
                  CallSetBackend "webgl"].
Proof.
  destruct (live_webgl_removed_registered_activated sample_table 0
              sample_flags (tf.BackendFactory 1 true) sample_world)
    as (o & w' & Hrun & Hcalls & _).
  - reflexivity.
  - reflexivity.
  - by eexists.
  - by exists o, w'.
Defined.

(** ** The overlay renderer *)

Lemma drawResults_app (img : Image) (ctx : Context2D)
  (before after : list Face) (boundingBox showKeypoints : bool) :
  drawResults img ctx (before ++ after) boundingBox showKeypoints
  = drawResults img
      (drawResults img ctx before boundingBox showKeypoints)
      after boundingBox showKeypoints.
Proof. unfold drawResults. apply foldl_app. Qed.

Lemma drawFace_toggles (img : Image) (ctx : Context2D) (face : Face)
  (boundingBox showKeypoints boundingBox' showKeypoints' : bool) :
  drawFace img boundingBox showKeypoints ctx face
  = drawFace img boundingBox' showKeypoints' ctx face.
Proof.
  unfold drawFace. by destruct showKeypoints, showKeypoints'.
Qed.

(** C7: for a face with the left eye at (10,10) and the right eye at
    (30,10) the eye distance is 20, the glasses are 60 wide and 30 high,
    and the centre of the eyes is (20,10).  When the image is not complete
    or has no natural width, the calls issued are one path with a circle of
    radius 3 around (10,10) and one around (30,10), filled, and no
    [drawImage]. *)
Theorem eyes_at_10_and_30 (img : Image) (ctx : Context2D)
  (first : Keypoint) (others : list Keypoint)
  (boundingBox showKeypoints : bool) :
  let leftEye : float * float := (10, 10)%float in
  let rightEye : float * float := (30, 10)%float in
  let face :=
    mkFace (first :: mkKeypoint 10 10 :: mkKeypoint 30 10 :: others) in
  (eyeDistance leftEye rightEye = 20%float
   ∧ glassesWidth leftEye rightEye = 60%float
   ∧ glassesHeight leftEye rightEye = 30%float
   ∧ centerX leftEye rightEye = 20%float
   ∧ centerY leftEye rightEye = 10%float)
  ∧ (complete img && (0 <? naturalWidth img)%N = false →
     drawResults img ctx [face] boundingBox showKeypoints
     = ctx ++ [BeginPath;
               Arc 10 10 3 0 (2 * Math_PI)%float;
               Arc 30 10 3 0 (2 * Math_PI)%float;
               Fill]).
Proof.
  intros leftEye rightEye face. split.
  - repeat split; reflexivity.
  - intros Himg. unfold drawResults, drawFace. simpl. rewrite Himg.
    by destruct showKeypoints.
Qed.

Lemma eyes_at_10_and_30_witness :
  drawResults unloaded [] [sample_face] true true
  = [BeginPath;
     Arc 10 10 3 0 (2 * Math_PI)%float;
     Arc 30 10 3 0 (2 * Math_PI)%float;
     Fill].
Proof.
  apply (proj2 (eyes_at_10_and_30 unloaded [] (mkKeypoint 20 25)
                  [mkKeypoint 20 40] true true)).
  reflexivity.
Defined.

(** C8: a face that lacks the keypoint at index 1 or at index 2 makes
    [drawResults] issue no call at all, neither the image nor the circles,
    and the faces before and after it are drawn exactly as they are
    without it.  ([drawResults] is a total function: no call of it
    throws.) *)
Theorem face_without_eye_is_skipped (img : Image) (ctx : Context2D)
  (before after : list Face) (face : Face)
  (boundingBox showKeypoints : bool) :
  keypoints face !! 1%nat = None ∨ keypoints face !! 2%nat = None →
  drawFace img boundingBox showKeypoints ctx face = ctx
  ∧ drawResults img ctx (before ++ face :: after) boundingBox showKeypoints
    = drawResults img ctx (before ++ after) boundingBox showKeypoints.
Proof.
  intros Hmissing.
  assert (Hskip : ∀ ctx', drawFace img boundingBox showKeypoints ctx' face
                          = ctx').
  { intros ctx'. unfold drawFace. rewrite !list_lookup_fmap.
    destruct Hmissing as [-> | ->]; simpl.
    - by destruct showKeypoints.
    - destruct (keypoints face !! 1%nat); by destruct showKeypoints. }
  split; [apply Hskip|].
  rewrite !drawResults_app. unfold drawResults at 1. simpl.
  by rewrite Hskip.
Qed.

Lemma face_without_eye_is_skipped_witness :
  drawResults unloaded [] [sample_face; short_face; sample_face] true false
  = drawResults unloaded [] [sample_face; sample_face] true false.
Proof.
  apply (proj2 (face_without_eye_is_skipped unloaded [] [sample_face]
                  [sample_face] short_face true false (or_intror eq_refl))).
Defined.

(** C9: the calls issued by [drawResults] are the same whatever the
    values of [boundingBox] and [showKeypoints]. *)
Theorem drawResults_ignores_toggles (img : Image) (ctx : Context2D)
  (faces : list Face)
  (boundingBox showKeypoints boundingBox' showKeypoints' : bool) :
  drawResults img ctx faces boundingBox showKeypoints
  = drawResults img ctx faces boundingBox' showKeypoints'.
Proof.
  unfold drawResults. revert ctx.
  induction faces as [|face faces IH]; intros ctx; simpl; [done|].
  rewrite IH. f_equal. apply drawFace_toggles.
Qed.

(** * Further properties *)

(** ** Backend names *)

Lemma split_head (sep : Ascii.ascii) (s : string) :
  ∃ pieces, split sep s = before_sep sep s :: pieces.
Proof.
  induction s as [|c s [pieces IH]]; simpl.
  - by eexists.
  - destruct (Ascii.eqb c sep); [by eexists|].
    rewrite IH. by eexists.
Qed.

Lemma split_tfjs (name : string) :
  split "-" ("tfjs-" +:+ name) = "tfjs"%string :: split "-" name.
Proof. reflexivity. Qed.

(** ** The ways out of [resetBackend] *)

(** The calls a reset adds concern the backend it is given. *)
Lemma resetBackend_adds (backendName : string) (w : World) :
  ∃ more,
    calls (resetBackend backendName w).2 = calls w ++ more
    ∧ (CallRemoveBackend backendName ∈ more
       ↔ js_in backendName (tf.registryFactory (ENGINE w)) = true
         ∧ js_in backendName (tf.registry (ENGINE w)) = true)
    ∧ ∀ c, c ∈ more →
        c = CallAlert webgpu_advice ∨ c = CallShowBackendConfigs
        ∨ c = CallRemoveBackend backendName
        ∨ (∃ f, c = CallRegisterBackend backendName f)
        ∨ c = CallSetBackend backendName.
Proof.
  assert (Hlist : ∀ (more : list Call) f,
    reset_calls backendName f
      (js_in backendName (tf.registry (ENGINE w))) more →
    js_in backendName (tf.registryFactory (ENGINE w)) = true →
    (CallRemoveBackend backendName ∈ more
     ↔ js_in backendName (tf.registryFactory (ENGINE w)) = true
       ∧ js_in backendName (tf.registry (ENGINE w)) = true)
    ∧ ∀ c, c ∈ more →
        c = CallAlert webgpu_advice ∨ c = CallShowBackendConfigs
        ∨ c = CallRemoveBackend backendName
        ∨ (∃ f, c = CallRegisterBackend backendName f)
        ∨ c = CallSetBackend backendName).
  { intros more f Hmore Hreg. unfold reset_calls in Hmore.
    destruct (js_in backendName (tf.registry (ENGINE w))).
    - destruct Hmore as [->| ->];
        (split; [split; [done|intros _; apply list_elem_of_here]|]);
        intros c Hc; repeat (apply elem_of_cons in Hc as [->|Hc]);
        eauto 6; by apply elem_of_nil in Hc.
    - subst more. split.
      + split; [|by intros [_ ?]]. intros Hin.
        apply list_elem_of_singleton in Hin. discriminate Hin.
      + intros c Hc. apply list_elem_of_singleton in Hc as ->. eauto 6. }
  destruct (resetBackend_cases backendName w)
    as [(-> & Hreg & H)|[(Hreg & _ & H)|[(Hreg & e1 & more & H & Hmore & _)
                                        |(Hreg & e1 & msg & more & H & Hmore)]]];
    rewrite H; cbn [snd calls].
  - exists [CallAlert webgpu_advice; CallShowBackendConfigs].
    split; [done|]. split.
    + split.
      * intros Hin. repeat (apply elem_of_cons in Hin as [Hin|Hin]);
          try discriminate Hin. by apply elem_of_nil in Hin.
      * intros [Hin _].
        assert (Hout : js_in "webgpu" (tf.registryFactory (ENGINE w))
                       = false) by by apply js_in_false.
        congruence.
    + intros c Hc. repeat (apply elem_of_cons in Hc as [->|Hc]); eauto.
      by apply elem_of_nil in Hc.
  - exists []. rewrite app_nil_r. split; [done|]. split.
    + split; [intros Hin; by apply elem_of_nil in Hin|].
      intros [Hin _]. congruence.
    + intros c Hc. by apply elem_of_nil in Hc.
  - exists more. split; [done|]. eapply Hlist; eauto.
  - exists more. split; [done|]. eapply Hlist; eauto.
Qed.

(** X1: when [resetBackend] ends by throwing, be it for a name it
    refuses or because a library call threw, [STATE] is as it was before
    the call: neither [STATE.backend] nor [STATE.lastTFJSBackend] has been
    written. *)
Theorem throwing_reset_leaves_STATE (backendName : string) (w w' : World)
  (e : Error) :
  resetBackend backendName w = (Threw e, w') →
  STATE w' = STATE w
  ∧ (e = BackendNotRegistered backendName ∨ ∃ msg, e = EngineFailure msg).
Proof.
  intros Hrun.
  destruct (resetBackend_cases backendName w)
    as [(_ & _ & H)|[(_ & _ & H)|[(_ & e1 & more & H & _)
                                 |(_ & e1 & msg & more & H & _)]]];
    rewrite H in Hrun; try discriminate Hrun; injection Hrun as <- <-;
    eauto.
Qed.

(** Resetting "constructor", a name every plain object inherits, gets
    as far as [removeBackend], which throws; [STATE] is untouched. *)
Lemma throwing_reset_leaves_STATE_witness :
  STATE (resetBackend "constructor" sample_world).2 = STATE sample_world.
Proof.
  refine (proj1 (throwing_reset_leaves_STATE "constructor" sample_world
            (resetBackend "constructor" sample_world).2
            (EngineFailure
               "this.registry[backendName].dispose is not a function") _)).
  vm_compute. reflexivity.
Defined.

(** X2: [STATE.backend] is only written by the fallback for an
    unregistered [webgpu]: when a call of [resetBackend] has changed it,
    the name was "webgpu", it had no factory, the call returned and the
    engine is untouched. *)
Theorem selection_changes_only_in_fallback (backendName : string)
  (w w' : World) (o : Outcome unit) :
  resetBackend backendName w = (o, w') →
  backend (STATE w') ≠ backend (STATE w) →
  backendName = "webgpu"%string
  ∧ tf.registryFactory (ENGINE w) !! "webgpu"%string = None
  ∧ o = Returned ()
  ∧ ENGINE w' = ENGINE w.
Proof.
  intros Hrun.
  destruct (resetBackend_cases backendName w)
    as [(-> & Hreg & H)|[(_ & _ & H)|[(_ & e1 & more & H & _)
                                     |(_ & e1 & msg & more & H & _)]]];
    rewrite H in Hrun; injection Hrun as <- <-; simpl;
    try (intros Hne; by destruct Hne).
  done.
Qed.

Lemma selection_changes_only_in_fallback_witness :
  ENGINE (resetBackend "webgpu"
            (mkWorld sample_engine (mkState VNull VUndefined) [])).2
  = sample_engine.
Proof.
  refine (proj2 (proj2 (proj2 (selection_changes_only_in_fallback "webgpu"
            (mkWorld sample_engine (mkState VNull VUndefined) [])
            (resetBackend "webgpu"
               (mkWorld sample_engine (mkState VNull VUndefined) [])).2
            (resetBackend "webgpu"
               (mkWorld sample_engine (mkState VNull VUndefined) [])).1
            _ _)))).
  - vm_compute. reflexivity.
  - vm_compute. discriminate.
Defined.

(** X3: [resetBackend] refuses a name exactly when the name is not [in]
    the table of factories, neither as a registered name nor as a name
    the table inherits from [Object.prototype], and is not "webgpu"; the
    error names it and the world is untouched. *)
Theorem resetBackend_refuses_exactly_unregistered (backendName : string)
  (w : World) :
  (tf.registryFactory (ENGINE w) !! backendName = None
   ∧ inherited backendName = false
   ∧ backendName ≠ "webgpu"%string)
  ↔ resetBackend backendName w = (Threw (BackendNotRegistered backendName), w).
Proof.
  split.
  - intros (Hreg & Hinh & Hname). apply resetBackend_not_registered; [|done].
    by apply js_in_false.
  - intros Hrun.
    destruct (resetBackend_cases backendName w)
      as [(_ & _ & H)|[(Hreg & Hname & _)|[(_ & e1 & more & H & _)
                                          |(_ & e1 & msg & more & H & _)]]];
      try (rewrite H in Hrun; discriminate Hrun).
    apply js_in_false in Hreg as [Hreg Hinh]. done.
Qed.

Lemma resetBackend_refuses_exactly_unregistered_witness :
  resetBackend "foo" sample_world
  = (Threw (BackendNotRegistered "foo"), sample_world).
Proof.
  apply (proj1 (resetBackend_refuses_exactly_unregistered "foo"
                  sample_world)).
  split; [reflexivity|]. split; [reflexivity|discriminate].
Defined.

(** X4: the calls [resetBackend] adds concern no backend but the one it
    is given, and it calls [removeBackend] for that backend exactly when
    the name is [in] the table of factories and [in] the table of live
    backends, as a registered name or as a name inherited from
    [Object.prototype]. *)
Theorem removal_exactly_for_live_backend (backendName : string)
  (w w' : World) (o : Outcome unit) :
  resetBackend backendName w = (o, w') →
  ∃ more,
    calls w' = calls w ++ more
    ∧ (CallRemoveBackend backendName ∈ more
       ↔ (is_Some (tf.registryFactory (ENGINE w) !! backendName)
          ∨ inherited backendName = true)
         ∧ (is_Some (tf.registry (ENGINE w) !! backendName)
            ∨ inherited backendName = true))
    ∧ ∀ c, c ∈ more →
        c = CallAlert webgpu_advice ∨ c = CallShowBackendConfigs
        ∨ c = CallRemoveBackend backendName
        ∨ (∃ f, c = CallRegisterBackend backendName f)
        ∨ c = CallSetBackend backendName.
Proof.
  intros Hrun.
  destruct (resetBackend_adds backendName w) as (more & Hcalls & Hrm & Hall).
  rewrite Hrun in Hcalls. exists more. split; [done|]. split; [|done].
  rewrite Hrm. unfold js_in.
  by rewrite !orb_true_iff, !bool_decide_eq_true.
Qed.

Lemma removal_exactly_for_live_backend_witness :
  ∃ more,
    calls (resetBackend "cpu" sample_world).2 = calls sample_world ++ more
    ∧ CallRemoveBackend "cpu" ∉ more.
Proof.
  destruct (removal_exactly_for_live_backend "cpu" sample_world
              (resetBackend "cpu" sample_world).2
              (resetBackend "cpu" sample_world).1)
    as (more & Hcalls & Hremove & _).
  - vm_compute. reflexivity.
  - exists more. split; [done|]. intros Hin.
    apply Hremove in Hin as [_ [[x Hx]|Hx]].
    + vm_compute in Hx. discriminate Hx.
    + vm_compute in Hx. discriminate Hx.
Defined.

(** A registered backend that is reset with success is on record as
    the last tfjs backend, and the other entries of the table of
    factories are as they were. *)
Lemma resetBackend_recorded (backendName : string) (w w1 : World) :
  is_Some (tf.registryFactory (ENGINE w) !! backendName) →
  resetBackend backendName w = (Returned (), w1) →
  lastTFJSBackend (STATE w1) = VStr ("tfjs-" +:+ backendName)
  ∧ backend (STATE w1) = backend (STATE w)
  ∧ ∀ k, k ≠ backendName →
      tf.registryFactory (ENGINE w1) !! k
      = tf.registryFactory (ENGINE w) !! k.
Proof.
  intros Hown Hrun. pose proof (js_in_own _ _ Hown) as Hreg.
  destruct (resetBackend_cases backendName w)
    as [(_ & Hnone & _)|[(Hnot & _)|[(_ & e1 & more & H & _ & Hothers)
                                    |(_ & e1 & msg & more & H & _)]]];
    try (rewrite H in Hrun; discriminate Hrun).
  - rewrite Hnone in Hown. by destruct Hown.
  - congruence.
  - rewrite H in Hrun. by injection Hrun as <-.
Qed.

(** X5: with no [webgpu] factory, once a registered backend has been
    reset with success, a request for [webgpu] falls back to that
    backend: [STATE.backend] reads "tfjs-" followed by its name. *)
Theorem fallback_selects_last_reset_backend (backendName : string)
  (w w1 : World) :
  is_Some (tf.registryFactory (ENGINE w) !! backendName) →
  tf.registryFactory (ENGINE w) !! "webgpu"%string = None →
  resetBackend backendName w = (Returned (), w1) →
  ∃ w2,
    resetBackend "webgpu" w1 = (Returned (), w2)
    ∧ backend (STATE w2) = VStr ("tfjs-" +:+ backendName)
    ∧ ENGINE w2 = ENGINE w1.
Proof.
  intros Hreg Hgpu Hrun.
  destruct (resetBackend_recorded backendName w w1 Hreg Hrun)
    as (Hlast & _ & Hothers).
  assert (Hne : "webgpu"%string ≠ backendName).
  { intros <-. rewrite Hgpu in Hreg. by destruct Hreg. }
  rewrite <- (Hothers _ Hne) in Hgpu.
  rewrite (resetBackend_webgpu_fallback w1 Hgpu).
  eexists. split; [reflexivity|]. simpl. by rewrite Hlast.
Qed.

Lemma fallback_selects_last_reset_backend_witness :
  ∃ w2,
    resetBackend "webgpu" (resetBackend "cpu" sample_world).2
    = (Returned (), w2)
    ∧ backend (STATE w2) = VStr "tfjs-cpu".
Proof.
  destruct (fallback_selects_last_reset_backend "cpu" sample_world
              (resetBackend "cpu" sample_world).2)
    as (w2 & Hrun & Hbackend & _).
  - by eexists.
  - reflexivity.
  - vm_compute. reflexivity.
  - by exists w2.
Defined.

(** ** The configurator as a whole *)

Section ConfiguratorExtras.

Variable TUNABLE_FLAG_VALUE_RANGE_MAP : gmap string (list value).

#[local] Abbreviation MAP := TUNABLE_FLAG_VALUE_RANGE_MAP.

(** After a valid configuration has been applied, the rest of the call
    runs on the world with the flags applied. *)
Lemma setBackendAndEnvFlags_valid (addr : nat) (props : JSObject)
  (backend : string) (w : World) :
  valid_flagConfig MAP props = true →
  setBackendAndEnvFlags MAP (VObject addr props) backend w =
    match split "-" backend with
    | runtime :: pieces =>
      if String.eqb runtime "tfjs" then
        resetBackend (match pieces with
                      | backend' :: _ => backend'
                      | [] => "undefined"%string
                      end)
      else mret ()
    | [] => mret ()
    end (flags_applied props w).
Proof.
  intros Hvalid. unfold setBackendAndEnvFlags. simpl.
  by rewrite (bind_returned _ _ _ _ _ (check_flags_valid MAP props w Hvalid)).
Qed.

Lemma setBackendAndEnvFlags_invalid (addr : nat) (props : JSObject)
  (backend : string) (w : World) :
  valid_flagConfig MAP props = false →
  ∃ e, setBackendAndEnvFlags MAP (VObject addr props) backend w
       = (Threw e, w)
       ∧ validation_error e = true.
Proof.
  intros Hvalid.
  destruct (setBackendAndEnvFlags_object MAP addr props backend w)
    as (o & Hv & ->).
  destruct o as [[]|e].
  - inversion Hv as [Hall| |]. unfold valid_flagConfig in Hvalid. congruence.
  - exists e. split; [done|].
    by destruct (verdict_threw_flag MAP props (keys props) e Hv)
      as [(flag & -> & _)|(flag & range & -> & _)].
Qed.

(** X6: with a valid configuration and a backend of the form
    "tfjs-name", the call is [setFlags] followed by [resetBackend] of the
    piece of the name before its first "-" (the whole name when it has
    none), with the outcome and the effects of that reset; with "tfjs"
    alone, the backend that is reset is "undefined". *)
Theorem tfjs_backend_applies_flags_then_resets (addr : nat)
  (props : JSObject) (name : string) (w : World) :
  valid_flagConfig MAP props = true →
  setBackendAndEnvFlags MAP (VObject addr props) ("tfjs-" +:+ name) w
  = resetBackend (before_sep "-" name) (flags_applied props w)
  ∧ setBackendAndEnvFlags MAP (VObject addr props) "tfjs" w
    = resetBackend "undefined" (flags_applied props w).
Proof.
  intros Hvalid. rewrite !setBackendAndEnvFlags_valid by done.
  split; [|reflexivity].
  rewrite split_tfjs. destruct (split_head "-" name) as [pieces ->].
  reflexivity.
Qed.

(** X7: with a valid configuration and a backend whose piece before the
    first "-" is not "tfjs", the call returns having applied the flags
    and nothing else: no backend call is issued and [STATE] is
    untouched. *)
Theorem other_runtime_only_applies_flags (addr : nat) (props : JSObject)
  (backend : string) (w : World) :
  valid_flagConfig MAP props = true →
  before_sep "-" backend ≠ "tfjs"%string →
  setBackendAndEnvFlags MAP (VObject addr props) backend w
  = (Returned (), flags_applied props w).
Proof.
  intros Hvalid Hruntime. rewrite setBackendAndEnvFlags_valid by done.
  destruct (split_head "-" backend) as [pieces ->].
  apply String.eqb_neq in Hruntime. by rewrite Hruntime.
Qed.


(** X9: [InvalidArgument] is the answer to exactly the arguments that
    are neither [null] or [undefined] nor of type "object": booleans,
    numbers, strings and functions.  It names the type found and leaves
    the world as it was. *)
Theorem invalid_argument_exactly_for_non_objects (flagConfig : value)
  (backend : string) (w : World) :
  (loosely_null flagConfig = false ∧ typeof flagConfig ≠ "object"%string)
  ↔ ∃ found w',
      setBackendAndEnvFlags MAP flagConfig backend w
      = (Threw (InvalidArgument found), w')
      ∧ found = typeof flagConfig ∧ w' = w.
Proof.
  split.
  - intros [Hnull Htype].
    destruct flagConfig; try discriminate Hnull; try (by destruct Htype);
      eexists _, _; (split; [reflexivity|done]).
  - intros (found & w' & Hrun & _).
    destruct flagConfig as [| |b|n|s|addr|addr props];
      try discriminate Hrun; try done.
    destruct (valid_flagConfig MAP props) eqn:Hvalid.
    + rewrite setBackendAndEnvFlags_valid in Hrun by done.
      destruct (split "-" backend) as [|runtime pieces];
        [discriminate Hrun|].
      destruct (runtime =? "tfjs")%string; [|discriminate Hrun].
      match type of Hrun with
      | resetBackend ?b ?w0 = _ =>
        destruct (resetBackend_cases b w0)
          as [(_ & _ & H)|[(_ & _ & H)|[(_ & e1 & more & H & _)
                                       |(_ & e1 & msg & more & H & _)]]]
      end; rewrite H in Hrun; discriminate Hrun.
    + destruct (setBackendAndEnvFlags_invalid addr props backend w Hvalid)
        as (e & He & Hval).
      rewrite He in Hrun. injection Hrun as -> _.
      destruct (setBackendAndEnvFlags_object MAP addr props backend w)
        as (o & Hv & Ho).
      rewrite He in Ho. destruct o as [[]|e']; [|injection Ho as <-].
      * inversion Hv as [Hall| |]. unfold valid_flagConfig in Hvalid.
        congruence.
      * destruct (verdict_threw_flag MAP props (keys props) _ Hv)
          as [(flag & Hflag & _)|(flag & range & Hflag & _)];
          discriminate Hflag.
Qed.

End ConfiguratorExtras.

Lemma tfjs_backend_applies_flags_then_resets_witness :
  setBackendAndEnvFlags sample_table (VObject 0 sample_flags) "tfjs-cpu"
    sample_world
  = resetBackend "cpu" (flags_applied sample_flags sample_world).
Proof.
  apply (proj1 (tfjs_backend_applies_flags_then_resets sample_table 0
                  sample_flags "cpu" sample_world eq_refl)).
Defined.

Lemma other_runtime_only_applies_flags_witness :
  setBackendAndEnvFlags sample_table (VObject 0 sample_flags)
    "mediapipe-gpu" sample_world
  = (Returned (), flags_applied sample_flags sample_world).
Proof.
  apply (other_runtime_only_applies_flags sample_table 0 sample_flags
           "mediapipe-gpu" sample_world eq_refl).
  vm_compute. discriminate.
Defined.


Lemma invalid_argument_exactly_for_non_objects_witness :
  ∃ found w',
    setBackendAndEnvFlags sample_table (VStr "WEBGL_PACK") "tfjs-webgl"
      sample_world
    = (Threw (InvalidArgument found), w')
    ∧ found = "string"%string ∧ w' = sample_world.
Proof.
  apply (proj1 (invalid_argument_exactly_for_non_objects sample_table
                  (VStr "WEBGL_PACK") "tfjs-webgl" sample_world)).
  split; [reflexivity|discriminate].
Defined.

(** ** The renderer, face by face *)

Lemma drawFace_calls (img : Image) (boundingBox showKeypoints : bool)
  (ctx : Context2D) (face : Face) :
  drawFace img boundingBox showKeypoints ctx face
  = ctx ++ drawFace img boundingBox showKeypoints [] face.
Proof.
  unfold drawFace. rewrite !list_lookup_fmap.
  destruct (keypoints face !! 1%nat) as [leftEye|],
    (keypoints face !! 2%nat) as [rightEye|]; simpl;
    try (destruct showKeypoints; by rewrite app_nil_r).
  destruct (complete img && (0 <? naturalWidth img)%N);
    by destruct showKeypoints.
Qed.

Lemma drawResults_calls (img : Image) (ctx : Context2D) (faces : list Face)
  (boundingBox showKeypoints : bool) :
  drawResults img ctx faces boundingBox showKeypoints
  = ctx ++ drawResults img [] faces boundingBox showKeypoints.
Proof.
  unfold drawResults. revert ctx.
  induction faces as [|face faces IH]; intros ctx; simpl.
  - by rewrite app_nil_r.
  - rewrite IH, (IH (drawFace _ _ _ [] _)), (drawFace_calls _ _ _ ctx).
    by rewrite app_assoc.
Qed.

Lemma drawResults_cons (img : Image) (face : Face) (faces : list Face)
  (boundingBox showKeypoints : bool) :
  drawResults img [] (face :: faces) boundingBox showKeypoints
  = drawFace img boundingBox showKeypoints [] face
    ++ drawResults img [] faces boundingBox showKeypoints.
Proof.
  unfold drawResults at 1. simpl. fold (drawResults img
    (drawFace img boundingBox showKeypoints [] face) faces boundingBox
    showKeypoints).
  apply drawResults_calls.
Qed.

(** What one face adds to an empty record: nothing without eyes, one
    [drawImage] when the image is ready, the path of two circles when it
    is not. *)
Lemma drawFace_alone (img : Image) (boundingBox showKeypoints : bool)
  (face : Face) :
  (has_eyes face = false
   ∧ drawFace img boundingBox showKeypoints [] face = [])
  ∨ (has_eyes face = true
     ∧ ((image_ready img = true
         ∧ ∃ dx dy dw dh,
             drawFace img boundingBox showKeypoints [] face
             = [DrawImage dx dy dw dh])
        ∨ (image_ready img = false
           ∧ ∃ c1 c2,
               drawFace img boundingBox showKeypoints [] face
               = [BeginPath; c1; c2; Fill]
               ∧ is_DrawImage c1 = false ∧ is_DrawImage c2 = false))).
Proof.
  unfold drawFace, has_eyes, image_ready. rewrite !list_lookup_fmap.
  destruct (keypoints face !! 1%nat) as [l|];
    [|left; by destruct showKeypoints].
  destruct (keypoints face !! 2%nat) as [r|];
    [|left; by destruct showKeypoints].
  right. split; [done|]. simpl.
  destruct (complete img && (0 <? naturalWidth img)%N).
  - left. split; [done|]. destruct showKeypoints; by eexists _, _, _, _.
  - right. split; [done|].
    destruct showKeypoints; by eexists _, _.
Qed.

(** X10: [drawResults] only adds calls: the calls the context had
    received stay in front, in their order, and what is added does not
    depend on them. *)
Theorem drawResults_only_appends (img : Image) (ctx : Context2D)
  (faces : list Face) (boundingBox showKeypoints : bool) :
  drawResults img ctx faces boundingBox showKeypoints
  = ctx ++ drawResults img [] faces boundingBox showKeypoints.
Proof. apply drawResults_calls. Qed.

(** X11: when the image is complete with a natural width, [drawResults]
    issues one [drawImage] for every face that has both eye keypoints, and
    no other call. *)
Theorem ready_image_drawn_once_per_face (img : Image) (faces : list Face)
  (boundingBox showKeypoints : bool) :
  image_ready img = true →
  forallb is_DrawImage (drawResults img [] faces boundingBox showKeypoints)
  = true
  ∧ length (drawResults img [] faces boundingBox showKeypoints)
    = length (List.filter has_eyes faces).
Proof.
  intros Hready. induction faces as [|face faces [IHall IHlen]]; [done|].
  rewrite drawResults_cons, forallb_app, length_app, IHall, IHlen. simpl.
  destruct (drawFace_alone img boundingBox showKeypoints face)
    as [[-> ->]|[-> [(_ & dx & dy & dw & dh & ->)|(Hnot & _)]]];
    [done|done|congruence].
Qed.

Lemma ready_image_drawn_once_per_face_witness :
  length (drawResults (mkImage true 512) []
            [sample_face; short_face; sample_face] true true)
  = length (List.filter has_eyes [sample_face; short_face; sample_face]).
Proof.
  apply (proj2 (ready_image_drawn_once_per_face (mkImage true 512)
                  [sample_face; short_face; sample_face] true true eq_refl)).
Defined.

(** X12: when the image is not complete or has no natural width,
    [drawResults] never calls [drawImage]: for every face that has both
    eye keypoints, in the order of the faces, it issues the four calls
    [beginPath], an arc of radius 3 around the left eye, an arc of radius
    3 around the right eye and [fill], and for the other faces
    nothing. *)
Theorem unready_image_never_drawn (img : Image) (faces : list Face)
  (boundingBox showKeypoints : bool) :
  image_ready img = false →
  drawResults img [] faces boundingBox showKeypoints
  = flat_map
      (λ face,
         match keypoints face !! 1%nat, keypoints face !! 2%nat with
         | Some leftEye, Some rightEye =>
           [BeginPath;
            Arc (x leftEye) (y leftEye) 3 0 (2 * Math_PI)%float;
            Arc (x rightEye) (y rightEye) 3 0 (2 * Math_PI)%float;
            Fill]
         | _, _ => []
         end)
      faces
  ∧ forallb (λ c, negb (is_DrawImage c))
      (drawResults img [] faces boundingBox showKeypoints) = true
  ∧ length (drawResults img [] faces boundingBox showKeypoints)
    = (4 * length (List.filter has_eyes faces))%nat.
Proof.
  intros Hready. unfold image_ready in Hready.
  induction faces as [|face faces (IHcalls & IHall & IHlen)]; [done|].
  rewrite drawResults_cons, forallb_app, length_app, IHall, IHlen.
  rewrite IHcalls at 1. cbn [flat_map List.filter].
  unfold drawFace, has_eyes. rewrite !list_lookup_fmap, Hready.
  destruct (keypoints face !! 1%nat) as [leftEye|],
    (keypoints face !! 2%nat) as [rightEye|];
    destruct showKeypoints; cbn; (split; [done|]); (split; [done|lia]).
Qed.

Lemma unready_image_never_drawn_witness :
  drawResults unloaded [] [sample_face; short_face] true true
  = [BeginPath;
     Arc 10 10 3 0 (2 * Math_PI)%float;
     Arc 30 10 3 0 (2 * Math_PI)%float;
     Fill].
Proof.
  apply (proj1 (unready_image_never_drawn unloaded [sample_face; short_face]
                  true true eq_refl)).
Defined.

(** X13: only the keypoints at index 1 and 2 are read: two lists of
    faces that agree, face by face, on these two keypoints are drawn with
    the same calls. *)
Theorem only_eye_keypoints_matter (img : Image) (ctx : Context2D)
  (faces faces' : list Face) (boundingBox showKeypoints : bool) :
  Forall2 (λ face face',
             keypoints face !! 1%nat = keypoints face' !! 1%nat
             ∧ keypoints face !! 2%nat = keypoints face' !! 2%nat)
          faces faces' →
  drawResults img ctx faces boundingBox showKeypoints
  = drawResults img ctx faces' boundingBox showKeypoints.
Proof.
  intros Hsame. revert ctx. unfold drawResults.
  induction Hsame as [|face face' faces faces' [H1 H2] _ IH]; intros ctx;
    [done|].
  simpl. rewrite IH. f_equal.
  unfold drawFace. by rewrite !list_lookup_fmap, H1, H2.
Qed.

Lemma only_eye_keypoints_matter_witness :
  drawResults unloaded [] [sample_face] false false
  = drawResults unloaded []
      [mkFace [mkKeypoint 0 0; mkKeypoint 10 10; mkKeypoint 30 10]]
      false false.
Proof.
  apply (only_eye_keypoints_matter unloaded [] [sample_face]
           [mkFace [mkKeypoint 0 0; mkKeypoint 10 10; mkKeypoint 30 10]]
           false false).
  repeat constructor.
Defined.

(** ** Paths *)

Lemma foldl_lineTo (region : Path2D) (points : list (float * float)) :
  foldl (λ region point, region ++ [LineTo point.1 point.2]) region points
  = region ++ ((λ point, LineTo point.1 point.2) <$> points).
Proof.
  revert region. induction points as [|point points IH]; intros region.
  - by rewrite app_nil_r.
  - simpl. by rewrite IH, <- app_assoc.
Qed.

Lemma drawPath_cons (ctx : list ContextCall) (first : float * float)
  (rest : list (float * float)) (closePath : bool) :
  drawPath ctx (first :: rest) closePath
  = Some (ctx ++ [Stroke (MoveTo first.1 first.2
                          :: ((λ point, LineTo point.1 point.2) <$> rest)
                          ++ (if closePath then [ClosePath] else []))]).
Proof.
  unfold drawPath. simpl. rewrite foldl_lineTo.
  destruct closePath; [done|]. by rewrite app_nil_r.
Qed.

Lemma vertices_lineTo (rest : list (float * float)) (tail : Path2D) :
  vertices (((λ point, LineTo point.1 point.2) <$> rest) ++ tail)
  = rest ++ vertices tail.
Proof.
  induction rest as [|[px py] rest IH]; [done|].
  rewrite fmap_cons. cbn [app vertices fst snd]. by rewrite IH.
Qed.

(** X14: [drawPath] fails exactly on an empty list of points, before
    anything is stroked.  On any other list it issues one [stroke], of the
    region that moves to the first point, draws a line to every further
    point in order, and is closed at the end exactly when [closePath] is
    set. *)
Theorem drawPath_strokes_one_polyline (ctx : list ContextCall)
  (points : list (float * float)) (closePath : bool) :
  (drawPath ctx points closePath = None ↔ points = [])
  ∧ ∀ first rest,
      points = first :: rest →
      drawPath ctx points closePath
      = Some (ctx ++ [Stroke (MoveTo first.1 first.2
                              :: ((λ point, LineTo point.1 point.2) <$> rest)
                              ++ (if closePath then [ClosePath] else []))]).
Proof.
  split.
  - destruct points as [|first rest]; [done|].
    rewrite drawPath_cons. split; intros H; discriminate H.
  - intros first rest ->. apply drawPath_cons.
Qed.

Lemma drawPath_strokes_one_polyline_witness :
  drawPath [] triangle true
  = Some [Stroke [MoveTo 0 0; LineTo 4 0; LineTo 4 3; ClosePath]].
Proof.
  apply (proj2 (drawPath_strokes_one_polyline [] triangle true)
           (0, 0)%float [(4, 0); (4, 3)]%float eq_refl).
Defined.

(** X15: the region [drawPath] strokes goes through the given points,
    all of them and in their order, and has one call for every point plus
    one when it is closed. *)
Theorem drawPath_goes_through_the_points (ctx ctx' : list ContextCall)
  (points : list (float * float)) (closePath : bool) :
  drawPath ctx points closePath = Some ctx' →
  ∃ region,
    ctx' = ctx ++ [Stroke region]
    ∧ vertices region = points
    ∧ length region
      = (length points + (if closePath then 1 else 0))%nat.
Proof.
  destruct points as [|[px py] rest]; [intros H; discriminate H|].
  rewrite drawPath_cons. intros [= <-]. eexists. split; [done|].
  split.
  - simpl. rewrite vertices_lineTo. destruct closePath; simpl;
      by rewrite app_nil_r.
  - simpl. rewrite length_app, length_fmap. by destruct closePath.
Qed.

Lemma drawPath_goes_through_the_points_witness :
  ∃ region,
    [Stroke [MoveTo 0 0; LineTo 4 0; LineTo 4 3]] = [] ++ [Stroke region]
    ∧ vertices region = triangle.
Proof.
  destruct (drawPath_goes_through_the_points []
              [Stroke [MoveTo 0 0; LineTo 4 0; LineTo 4 3]] triangle false
              eq_refl)
    as (region & Hctx & Hvertices & _).
  by exists region.
Defined.

(** ** Device detection *)

Lemma fold_case_idem (c : Ascii.ascii) : fold_case (fold_case c) = fold_case c.
Proof. destruct c as [[] [] [] [] [] [] [] []]; reflexivity. Qed.

Lemma matches_here_fold (word text : string) :
  matches_here word (fold_string text) = matches_here word text.
Proof.
  revert text. induction word as [|a word IH]; intros [|c text]; simpl;
    try done.
  by rewrite fold_case_idem, IH.
Qed.

Lemma test_fold (word text : string) :
  test word (fold_string text) = test word text.
Proof.
  induction text as [|c text IH].
  - reflexivity.
  - change (fold_string (String c text))
      with (String (fold_case c) (fold_string text)).
    change (test word (String (fold_case c) (fold_string text)))
      with (matches_here word (fold_string (String c text))
            || test word (fold_string text)).
    by rewrite matches_here_fold, IH.
Qed.

Lemma matches_here_spec (word text : string) :
  matches_here word text = true
  ↔ ∃ mid post, text = mid +:+ post ∧ fold_string mid = fold_string word.
Proof.
  revert text. induction word as [|a word IH]; intros text.
  - split; [|by destruct text]. intros _. by exists ""%string, text.
  - destruct text as [|c text]; simpl.
    + split; [done|]. intros (mid & post & Htext & Hmid).
      destruct mid; discriminate.
    + rewrite andb_true_iff, IH, Ascii.eqb_eq. split.
      * intros (Hc & mid & post & -> & Hmid).
        exists (String c mid), post. simpl. by rewrite Hmid, Hc.
      * intros (mid & post & Htext & Hmid).
        destruct mid as [|c' mid]; [discriminate Hmid|].
        simpl in Htext, Hmid. injection Htext as -> ->.
        injection Hmid as Hc Hmid. eauto.
Qed.

Lemma test_spec (word text : string) :
  test word text = true
  ↔ ∃ pre mid post,
      text = pre +:+ mid +:+ post ∧ fold_string mid = fold_string word.
Proof.
  induction text as [|c text IH].
  - change (test word "") with (matches_here word "" || false).
    rewrite orb_false_r, matches_here_spec. split.
    + intros (mid & post & Htext & Hmid). by exists ""%string, mid, post.
    + intros (pre & mid & post & Htext & Hmid).
      destruct pre; [|discriminate Htext].
      exists mid, post. split; [exact Htext|done].
  - change (test word (String c text))
      with (matches_here word (String c text) || test word text).
    rewrite orb_true_iff, matches_here_spec, IH. split.
    + intros [(mid & post & Htext & Hmid)|(pre & mid & post & -> & Hmid)].
      * by exists ""%string, mid, post.
      * by exists (String c pre), mid, post.
    + intros (pre & mid & post & Htext & Hmid).
      destruct pre as [|c' pre].
      * left. exists mid, post. split; [exact Htext|done].
      * right. simpl in Htext. injection Htext as -> ->. eauto.
Qed.

Lemma append_assoc (a b c : string) : (a +:+ b) +:+ c = a +:+ b +:+ c.
Proof.
  induction a as [|x a IH]; [done|].
  change (String x ((a +:+ b) +:+ c) = String x (a +:+ b +:+ c)).
  by rewrite IH.
Qed.

Lemma test_inside (word pre text post : string) :
  test word text = true → test word (pre +:+ text +:+ post) = true.
Proof.
  rewrite !test_spec. intros (pre' & mid & post' & -> & Hmid).
  exists (pre +:+ pre'), mid, (post' +:+ post). split; [|done].
  by rewrite !append_assoc.
Qed.

(** X16: [isMobile] answers [true] exactly when the user agent contains
    one of the words Android, iPhone, iPad and iPod, in any mix of upper
    and lower case; [isAndroid] and [isiOS] split these words between
    them. *)
Theorem isMobile_finds_a_device_word (userAgent : string) :
  (isMobile userAgent = true
   ↔ ∃ word pre mid post,
       word ∈ mobile_words
       ∧ userAgent = pre +:+ mid +:+ post
       ∧ fold_string mid = fold_string word)
  ∧ isMobile userAgent = isAndroid userAgent || isiOS userAgent
  ∧ (isAndroid userAgent = true
     ↔ ∃ pre mid post,
         userAgent = pre +:+ mid +:+ post
         ∧ fold_string mid = "android"%string).
Proof.
  split; [|split; [done|apply test_spec]].
  unfold isMobile, isAndroid, isiOS, mobile_words.
  rewrite !orb_true_iff, !test_spec. split.
  - intros [H|[[H|H]|H]]; destruct H as (pre & mid & post & Htext & Hmid);
      eexists _, pre, mid, post; (split; [|done]).
    + apply list_elem_of_here.
    + apply list_elem_of_further, list_elem_of_here.
    + do 2 apply list_elem_of_further. apply list_elem_of_here.
    + do 3 apply list_elem_of_further. apply list_elem_of_here.
  - intros (word & pre & mid & post & Hword & Htext & Hmid).
    repeat (apply elem_of_cons in Hword as [->|Hword]); eauto 10.
    by apply elem_of_nil in Hword.
Qed.

Lemma isMobile_finds_a_device_word_witness : isMobile "my IPAD mini" = true.
Proof.
  apply (proj2 (proj1 (isMobile_finds_a_device_word "my IPAD mini"))).
  exists "iPad"%string, "my "%string, "IPAD"%string, " mini"%string.
  split; [|split; reflexivity].
  do 2 apply list_elem_of_further. apply list_elem_of_here.
Defined.

(** X17: the three tests do not tell upper case from lower case: user
    agents that differ only in the case of their letters get the same
    answers. *)
Theorem device_tests_ignore_case (userAgent userAgent' : string) :
  fold_string userAgent = fold_string userAgent' →
  isiOS userAgent = isiOS userAgent'
  ∧ isAndroid userAgent = isAndroid userAgent'
  ∧ isMobile userAgent = isMobile userAgent'.
Proof.
  intros Hsame. unfold isMobile, isAndroid, isiOS.
  rewrite <- !(test_fold _ userAgent), <- !(test_fold _ userAgent'), Hsame.
  done.
Qed.

Lemma device_tests_ignore_case_witness :
  isMobile "ANDROID tablet" = isMobile "android TABLET".
Proof.
  apply (proj2 (proj2 (device_tests_ignore_case "ANDROID tablet"
                         "android TABLET" eq_refl))).
Defined.

(** X18: a positive answer survives any text put before and after the
    user agent. *)
Theorem device_tests_survive_embedding (pre userAgent post : string) :
  (isiOS userAgent = true → isiOS (pre +:+ userAgent +:+ post) = true)
  ∧ (isAndroid userAgent = true →
     isAndroid (pre +:+ userAgent +:+ post) = true)
  ∧ (isMobile userAgent = true →
     isMobile (pre +:+ userAgent +:+ post) = true).
Proof.
  unfold isMobile, isAndroid, isiOS. rewrite !orb_true_iff.
  repeat split; intros H;
    repeat match goal with
           | H : _ ∨ _ |- _ => destruct H as [H|H]
           end;
    eauto using test_inside.
Qed.

Lemma device_tests_survive_embedding_witness :
  isMobile ("Mozilla/5.0 (" +:+ "Linux; Android 13" +:+ ") Chrome") = true.
Proof.
  apply (proj2 (proj2 (device_tests_survive_embedding "Mozilla/5.0 ("
                         "Linux; Android 13" ") Chrome"))).
  reflexivity.
Defined.
